(** * Simulation objects of voxblox: distance and ray-intersection queries

    Shallow embedding of [voxblox/simulation/objects.h]: the [Object] base
    class and its three subclasses [Sphere], [Cube] and [Plane], with their
    two virtual queries [getDistanceToPoint] and [getRayIntersection].

    The header computes over [FloatingPoint] and [Point], both declared in
    [voxblox/core/common.h].  The arithmetic is therefore kept behind an
    interface ([Scalar]); the queries are written once against it, in the
    order of operations of the header, and then read at two instances:
    binary64 floats, on which they run, and the real numbers, on which the
    algebraic statements are proved. *)

From Stdlib Require Import Floats.
From Stdlib Require Import Reals Lra Lia ZArith List Bool String.
Import ListNotations.

Set Implicit Arguments.

(** ** The arithmetic of [FloatingPoint] *)

Declare Scope fp_scope.
Delimit Scope fp_scope with fp.

(** [FloatingPoint] is declared in [voxblox/core/common.h], which is not
    part of the sources at hand; it is taken as a parameter, with the
    operations the header applies to it: the four operators, unary minus,
    [operator<], the literals [0.0] and [1e-6], and the calls [pow(x, 2)],
    [sqrt(x)] and [std::abs(x)]. *)
Class Scalar (F : Type) : Type := {
  fzero : F;
  feps  : F;
  fadd  : F -> F -> F;
  fsub  : F -> F -> F;
  fmul  : F -> F -> F;
  fdiv  : F -> F -> F;
  fneg  : F -> F;
  fsqr  : F -> F;
  fsqrt : F -> F;
  fabs  : F -> F;
  fltb  : F -> F -> bool
}.

Infix "+" := fadd : fp_scope.
Infix "-" := fsub : fp_scope.
Infix "*" := fmul : fp_scope.
Infix "/" := fdiv : fp_scope.
Notation "- x" := (fneg x) : fp_scope.
Infix "<?" := fltb (at level 70, no associativity) : fp_scope.
(** [a > b] on the built-in type is [b < a]. *)
Notation "a >? b" := (fltb b a) (at level 70, no associativity) : fp_scope.

(** Binary64, the type [FloatingPoint] stands for in this revision
    ([std::max(center_.x() - ..., 0.0)] needs both arguments of one type,
    and [0.0] is a [double]).  [pow(x, 2)] is taken as the rounded square;
    [feps] is the binary64 value nearest to [1e-6]. *)
#[export] Instance float_Scalar : Scalar float := {|
  fzero := 0%float;
  feps  := 0x1.0c6f7a0b5ed8dp-20%float;
  fadd  := PrimFloat.add;
  fsub  := PrimFloat.sub;
  fmul  := PrimFloat.mul;
  fdiv  := PrimFloat.div;
  fneg  := PrimFloat.opp;
  fsqr  := fun x => PrimFloat.mul x x;
  fsqrt := PrimFloat.sqrt;
  fabs  := PrimFloat.abs;
  fltb  := PrimFloat.ltb
|}.

(** [operator<] on the reals. *)
Definition Rltb (a b : R) : bool := if Rlt_dec a b then true else false.

(** The real numbers: the exact arithmetic the formulas are written for.
    A statement at this instance is a statement in exact real arithmetic: no
    rounding, no overflow, no not-a-number, and [1e-6] read as the real
    [1 / 1000000], which lies above the double the header's literal
    denotes. *)
#[export] Instance R_Scalar : Scalar R := {|
  fzero := 0%R;
  feps  := (1 / 1000000)%R;
  fadd  := Rplus;
  fsub  := Rminus;
  fmul  := Rmult;
  fdiv  := Rdiv;
  fneg  := Ropp;
  fsqr  := fun x => (x ^ 2)%R;
  fsqrt := sqrt;
  fabs  := Rabs;
  fltb  := Rltb
|}.

(** ** Points and colours *)

(** Modelled from the spec: [Point] is declared in
    [voxblox/core/common.h], which is not part of the sources at hand; the
    spec describes it as a 3-component real-valued vector.  The header uses
    it as an Eigen column vector: coefficients [x()], [y()], [z()], [+], [-],
    scaling, [dot], [norm], [squaredNorm], [maxCoeff] and [Zero()]. *)
Record Point (F : Type) : Type := mkPoint { x : F; y : F; z : F }.

Arguments mkPoint {F} _ _ _.
Arguments x {F} _.
Arguments y {F} _.
Arguments z {F} _.

Declare Scope point_scope.
Delimit Scope point_scope with pt.
Bind Scope point_scope with Point.

Section Vectors.

Context {F : Type} {SF : Scalar F}.
Local Open Scope fp_scope.

Definition Point_Zero : Point F := mkPoint fzero fzero fzero.

(** [a + b], [a - b] and [d * a], coefficient by coefficient. *)
Definition Point_add (a b : Point F) : Point F :=
  mkPoint (x a + x b) (y a + y b) (z a + z b).

Definition Point_sub (a b : Point F) : Point F :=
  mkPoint (x a - x b) (y a - y b) (z a - z b).

Definition Point_scale (d : F) (a : Point F) : Point F :=
  mkPoint (d * x a) (d * y a) (d * z a).

(** [a.dot(b)]: the sum of the coefficient-wise products. *)
Definition dot (a b : Point F) : F :=
  x a * x b + y a * y b + z a * z b.

(** [a.squaredNorm()], and [a.norm()], its square root. *)
Definition squaredNorm (a : Point F) : F :=
  x a * x a + y a * y a + z a * z a.

Definition norm (a : Point F) : F := fsqrt (squaredNorm a).

(** [std::max(a, b)] is [(a < b) ? b : a]. *)
Definition std_max (a b : F) : F := if a <? b then b else a.

(** [a.maxCoeff()]: a visitor that starts from the first coefficient and
    replaces its candidate whenever the next coefficient is greater. *)
Definition maxCoeff (a : Point F) : F :=
  let res := x a in
  let res := if y a >? res then y a else res in
  if z a >? res then z a else res.

End Vectors.

Infix "+" := Point_add : point_scope.
Infix "-" := Point_sub : point_scope.
Notation "d *: a" := (Point_scale d a) (at level 40, left associativity) : point_scope.

(** Modelled from the spec: [Color] is declared in [voxblox/core/common.h],
    which is not part of the sources at hand; the spec describes it as an
    RGB(A) value that is pure data.  [White] is the colour the two-argument
    constructors attach. *)
Record Color : Type := mkColor { r : Z; g : Z; b : Z; a : Z }.

Definition White : Color := mkColor 255 255 255 255.

(** ** Out-parameters and the output stream *)

(** What [operator<<] writes to [std::cout]. *)
Inductive Output (F : Type) : Type :=
| put_string (s : string)
| put_FloatingPoint (d : F)
| put_endl.

Arguments put_string {F} _.
Arguments put_FloatingPoint {F} _.
Arguments put_endl {F}.

(** The state a ray query can touch: the two locations the caller passes
    as [Point* intersect_point] and [FloatingPoint* intersect_dist], and what
    has been written to [std::cout] so far (oldest first). *)
Record Mem (F : Type) : Type := mkMem {
  intersect_point : Point F;
  intersect_dist  : F;
  cout            : list (Output F)
}.

Arguments mkMem {F} _ _ _.
Arguments intersect_point {F} _.
Arguments intersect_dist {F} _.
Arguments cout {F} _.

(** A member function is a state transformer over [Mem]. *)
Definition M (F A : Type) : Type := Mem F -> A * Mem F.

Section Monad.

Context {F : Type}.

Definition ret {A : Type} (v : A) : M F A := fun m => (v, m).

Definition bind {A B : Type} (c : M F A) (k : A -> M F B) : M F B :=
  fun m => let (v, m') := c m in k v m'.

(** [*intersect_point = p] *)
Definition store_intersect_point (p : Point F) : M F unit :=
  fun m => (tt, mkMem p (intersect_dist m) (cout m)).

(** [*intersect_dist = d] *)
Definition store_intersect_dist (d : F) : M F unit :=
  fun m => (tt, mkMem (intersect_point m) d (cout m)).

(** [std::cout << o] *)
Definition cout_put (o : Output F) : M F unit :=
  fun m => (tt, mkMem (intersect_point m) (intersect_dist m) (cout m ++ [o])).

End Monad.

Notation "c1 ;; c2" := (bind c1 (fun _ => c2))
  (at level 61, right associativity).

(** ** The base class [Object] *)

Module Object.

(** [enum Type { kSphere = 0, kCube, kPlane }] *)
Inductive Type_ : Set := kSphere | kCube | kPlane.

(** The protected members [center_], [type_] and [color_]. *)
Record t (F : Type) : Type := mk {
  center_ : Point F;
  type_   : Type_;
  color_  : Color
}.

Arguments mk {F} _ _ _.
Arguments center_ {F} _.
Arguments type_ {F} _.
Arguments color_ {F} _.

Section Methods.

Context {F : Type} {SF : Scalar F}.

(** [Object(center, type, color)] and [Object(center, type)], which
    delegates with [Color::White()]. *)
Definition new_colored (center : Point F) (type : Type_) (color : Color) : t F :=
  mk center type color.

Definition new (center : Point F) (type : Type_) : t F :=
  new_colored center type White.

(** The default of the virtual [getDistanceToPoint]: [return 0.0]. *)
Definition getDistanceToPoint (this : t F) (point : Point F) : F := fzero.

Definition getColor (this : t F) : Color := color_ this.

(** The default of the virtual [getRayIntersection]: [return false]. *)
Definition getRayIntersection (this : t F)
    (ray_origin ray_direction : Point F) (max_dist : F) : M F bool :=
  ret false.

End Methods.

End Object.

(** ** [Sphere] *)

Module Sphere.

Record t (F : Type) : Type := mk {
  base    : Object.t F;
  radius_ : F
}.

Arguments mk {F} _ _.
Arguments base {F} _.
Arguments radius_ {F} _.

Section Methods.

Context {F : Type} {SF : Scalar F}.
Local Open Scope fp_scope.

Definition new (center : Point F) (radius : F) : t F :=
  mk (Object.new center Object.kSphere) radius.

Definition new_colored (center : Point F) (radius : F) (color : Color) : t F :=
  mk (Object.new_colored center Object.kSphere color) radius.

Definition center_ (this : t F) : Point F := Object.center_ (base this).

Definition getDistanceToPoint (this : t F) (point : Point F) : F :=
  let distance := norm (center_ this - point)%pt - radius_ this in
  distance.

Definition getRayIntersection (this : t F)
    (ray_origin ray_direction : Point F) (max_dist : F) : M F bool :=
  let under_square_root :=
    fsqr (dot ray_direction (ray_origin - center_ this)%pt)
    - squaredNorm (ray_origin - center_ this)%pt
    + fsqr (radius_ this) in
  (* No real roots = no intersection. *)
  if under_square_root <? fzero then ret false else
  let d :=
    - (dot ray_direction (ray_origin - center_ this)%pt)
    - fsqrt under_square_root in
  (* Intersection behind the origin. *)
  if d <? fzero then ret false else
  (* Intersection greater than max dist. *)
  if d >? max_dist then ret false else
  store_intersect_point (ray_origin + d *: ray_direction)%pt ;;
  store_intersect_dist d ;;
  ret true.

End Methods.

End Sphere.

(** ** [Cube] *)

Module Cube.

Record t (F : Type) : Type := mk {
  base  : Object.t F;
  size_ : Point F
}.

Arguments mk {F} _ _.
Arguments base {F} _.
Arguments size_ {F} _.

Section Methods.

Context {F : Type} {SF : Scalar F}.
Local Open Scope fp_scope.

Definition new (center size : Point F) : t F :=
  mk (Object.new center Object.kCube) size.

Definition new_colored (center size : Point F) (color : Color) : t F :=
  mk (Object.new_colored center Object.kCube color) size.

Definition center_ (this : t F) : Point F := Object.center_ (base this).

Definition getDistanceToPoint (this : t F) (point : Point F) : F :=
  let c := center_ this in
  let s := size_ this in
  let distance_vector :=
    mkPoint
      (std_max (std_max (x c - x s - x point) fzero) (x point - x c - x s))
      (std_max (std_max (y c - y s - y point) fzero) (y point - y c - y s))
      (std_max (std_max (z c - z s - z point) fzero) (z point - z c - z s)) in
  let distance := norm distance_vector in
  (* Basically 0... Means it's inside! *)
  if distance <? feps then
    let distance_vector :=
      mkPoint
        (std_max (x c - x s - x point) (x point - x c - x s))
        (std_max (y c - y s - y point) (y point - y c - y s))
        (std_max (z c - z s - z point) (z point - z c - z s)) in
    maxCoeff distance_vector
  else distance.

(** [Cube] does not override [getRayIntersection]: a call runs the
    member it inherits from [Object]. *)
Definition getRayIntersection (this : t F)
    (ray_origin ray_direction : Point F) (max_dist : F) : M F bool :=
  Object.getRayIntersection (base this) ray_origin ray_direction max_dist.

End Methods.

End Cube.

(** ** [Plane] *)

Module Plane.

Record t (F : Type) : Type := mk {
  base    : Object.t F;
  normal_ : Point F
}.

Arguments mk {F} _ _.
Arguments base {F} _.
Arguments normal_ {F} _.

Section Methods.

Context {F : Type} {SF : Scalar F}.
Local Open Scope fp_scope.

Definition new (center normal : Point F) : t F :=
  mk (Object.new center Object.kPlane) normal.

Definition new_colored (center normal : Point F) (color : Color) : t F :=
  mk (Object.new_colored center Object.kPlane color) normal.

Definition center_ (this : t F) : Point F := Object.center_ (base this).

Definition getDistanceToPoint (this : t F) (point : Point F) : F :=
  (* Compute the 'd' in ax + by + cz + d = 0 *)
  let d := - (dot (normal_ this) (center_ this)) in
  let p := d / norm (normal_ this) in
  let distance := dot (normal_ this) point + p in
  distance.

Definition getRayIntersection (this : t F)
    (ray_origin ray_direction : Point F) (max_dist : F) : M F bool :=
  let denominator := dot ray_direction (normal_ this) in
  (* Lines are parallel, no intersection. *)
  if fabs denominator <? feps then ret false else
  let d := dot (center_ this - ray_origin)%pt (normal_ this) / denominator in
  cout_put (put_string "d: ") ;;
  cout_put (put_FloatingPoint d) ;;
  cout_put put_endl ;;
  if d <? fzero then ret false else
  if d >? max_dist then ret false else
  store_intersect_point (ray_origin + d *: ray_direction)%pt ;;
  store_intersect_dist d ;;
  ret true.

End Methods.

End Plane.

(** ** Objects behind the base-class interface *)

(** What an [Object*] can point to: an [Object] itself (the class is not
    abstract) or one of its three subclasses. *)
Inductive AnyObject (F : Type) : Type :=
| AsObject (o : Object.t F)
| AsSphere (s : Sphere.t F)
| AsCube   (c : Cube.t F)
| AsPlane  (p : Plane.t F).

Arguments AsObject {F} _.
Arguments AsSphere {F} _.
Arguments AsCube {F} _.
Arguments AsPlane {F} _.

Section Dispatch.

Context {F : Type} {SF : Scalar F}.

(** The [Object] subobject. *)
Definition as_base (o : AnyObject F) : Object.t F :=
  match o with
  | AsObject o => o
  | AsSphere s => Sphere.base s
  | AsCube c => Cube.base c
  | AsPlane p => Plane.base p
  end.

(** Virtual calls. *)
Definition getDistanceToPoint (o : AnyObject F) (point : Point F) : F :=
  match o with
  | AsObject o => Object.getDistanceToPoint o point
  | AsSphere s => Sphere.getDistanceToPoint s point
  | AsCube c => Cube.getDistanceToPoint c point
  | AsPlane p => Plane.getDistanceToPoint p point
  end.

Definition getRayIntersection (o : AnyObject F)
    (ray_origin ray_direction : Point F) (max_dist : F) : M F bool :=
  match o with
  | AsObject o => Object.getRayIntersection o ray_origin ray_direction max_dist
  | AsSphere s => Sphere.getRayIntersection s ray_origin ray_direction max_dist
  | AsCube c => Cube.getRayIntersection c ray_origin ray_direction max_dist
  | AsPlane p => Plane.getRayIntersection p ray_origin ray_direction max_dist
  end.

(** [getColor] is not virtual. *)
Definition getColor (o : AnyObject F) : Color := Object.getColor (as_base o).

End Dispatch.

(** ** Vocabulary of the statements *)

(** The two caller-owned locations of a state. *)
Definition outputs {F : Type} (m : Mem F) : Point F * F :=
  (intersect_point m, intersect_dist m).

(** What one pass through the printing statement of
    [Plane::getRayIntersection] appends to [std::cout]. *)
Definition plane_trace {F : Type} (d : F) : list (Output F) :=
  [put_string "d: "; put_FloatingPoint d; put_endl].

(** The three queries of the interface, as a caller issues them, and
    what each hands back. *)
Inductive Query (F : Type) : Type :=
| AskDistance (point : Point F)
| AskRayIntersection (ray_origin ray_direction : Point F) (max_dist : F)
| AskColor.

Arguments AskDistance {F} _.
Arguments AskRayIntersection {F} _ _ _.
Arguments AskColor {F}.

Inductive Answer (F : Type) : Type :=
| Distance (d : F)
| RayIntersection (hit : bool)
| ItsColor (c : Color).

Arguments Distance {F} _.
Arguments RayIntersection {F} _.
Arguments ItsColor {F} _.

Definition ask {F : Type} {SF : Scalar F} (obj : AnyObject F) (q : Query F)
    : M F (Answer F) :=
  match q with
  | AskDistance point => ret (Distance (getDistanceToPoint obj point))
  | AskRayIntersection ray_origin ray_direction max_dist =>
      bind (getRayIntersection obj ray_origin ray_direction max_dist)
           (fun hit => ret (RayIntersection hit))
  | AskColor => ret (ItsColor (getColor obj))
  end.

(** The answer was a hit. *)
Definition is_hit {F : Type} (a : Answer F) : bool :=
  match a with
  | RayIntersection hit => hit
  | _ => false
  end.

(** The values the bodies compute on their way, on any arithmetic, in the
    header's order of operations. *)
Section Computed.

Context {F : Type} {SF : Scalar F}.
Local Open Scope fp_scope.

(** [under_square_root] and [d] of [Sphere::getRayIntersection], and the
    other root of the same quadratic. *)
Definition computed_discriminant (s : Sphere.t F) (o dir : Point F) : F :=
  fsqr (dot dir (o - Sphere.center_ s)%pt)
  - squaredNorm (o - Sphere.center_ s)%pt
  + fsqr (Sphere.radius_ s).

Definition computed_root (s : Sphere.t F) (o dir : Point F) : F :=
  - (dot dir (o - Sphere.center_ s)%pt) - fsqrt (computed_discriminant s o dir).

Definition computed_far_root (s : Sphere.t F) (o dir : Point F) : F :=
  - (dot dir (o - Sphere.center_ s)%pt) + fsqrt (computed_discriminant s o dir).

(** [denominator] and [d] of [Plane::getRayIntersection]. *)
Definition computed_denominator (pl : Plane.t F) (dir : Point F) : F :=
  dot dir (Plane.normal_ pl).

Definition computed_d (pl : Plane.t F) (o dir : Point F) : F :=
  dot (Plane.center_ pl - o)%pt (Plane.normal_ pl) / computed_denominator pl dir.

(** The two values [distance_vector] takes in [Cube::getDistanceToPoint]. *)
Definition computed_clamped (cb : Cube.t F) (p : Point F) : Point F :=
  let c := Cube.center_ cb in
  let s := Cube.size_ cb in
  mkPoint
    (std_max (std_max (x c - x s - x p) fzero) (x p - x c - x s))
    (std_max (std_max (y c - y s - y p) fzero) (y p - y c - y s))
    (std_max (std_max (z c - z s - z p) fzero) (z p - z c - z s)).

Definition computed_unclamped (cb : Cube.t F) (p : Point F) : Point F :=
  let c := Cube.center_ cb in
  let s := Cube.size_ cb in
  mkPoint
    (std_max (x c - x s - x p) (x p - x c - x s))
    (std_max (y c - y s - y p) (y p - y c - y s))
    (std_max (z c - z s - z p) (z p - z c - z s)).

End Computed.

Section Vocabulary.

Local Open Scope R_scope.

(** The quantities named by the line-sphere formula: [b], [c], the
    discriminant [b^2 - c] and its two roots. *)
Definition sphere_b (s : Sphere.t R) (o dir : Point R) : R :=
  dot dir (o - Sphere.center_ s)%pt.

Definition sphere_c (s : Sphere.t R) (o : Point R) : R :=
  squaredNorm (o - Sphere.center_ s)%pt - Sphere.radius_ s ^ 2.

Definition sphere_discriminant (s : Sphere.t R) (o dir : Point R) : R :=
  sphere_b s o dir ^ 2 - sphere_c s o.

Definition sphere_near_root (s : Sphere.t R) (o dir : Point R) : R :=
  - sphere_b s o dir - sqrt (sphere_discriminant s o dir).

Definition sphere_far_root (s : Sphere.t R) (o dir : Point R) : R :=
  - sphere_b s o dir + sqrt (sphere_discriminant s o dir).

(** The quantities named by the line-plane formula. *)
Definition plane_denominator (pl : Plane.t R) (dir : Point R) : R :=
  dot dir (Plane.normal_ pl).

Definition plane_d (pl : Plane.t R) (o dir : Point R) : R :=
  dot (Plane.center_ pl - o)%pt (Plane.normal_ pl) / plane_denominator pl dir.

(** The offset [d = -(normal . center)] of the implicit form. *)
Definition plane_offset (pl : Plane.t R) : R :=
  - dot (Plane.normal_ pl) (Plane.center_ pl).

(** The per-axis terms of the box distance, with and without the clamp
    at zero, for centre [c], half-extent [h] and coordinate [p]. *)
Definition clamped_term (c h p : R) : R :=
  Rmax (Rmax (c - h - p) 0) (p - c - h).

Definition unclamped_term (c h p : R) : R :=
  Rmax (c - h - p) (p - c - h).

Definition cube_clamped_norm (cb : Cube.t R) (p : Point R) : R :=
  let c := Cube.center_ cb in
  let h := Cube.size_ cb in
  sqrt (clamped_term (x c) (x h) (x p) ^ 2
        + clamped_term (y c) (y h) (y p) ^ 2
        + clamped_term (z c) (z h) (z p) ^ 2).

Definition cube_fallback (cb : Cube.t R) (p : Point R) : R :=
  let c := Cube.center_ cb in
  let h := Cube.size_ cb in
  Rmax (Rmax (unclamped_term (x c) (x h) (x p))
             (unclamped_term (y c) (y h) (y p)))
       (unclamped_term (z c) (z h) (z p)).

(** [p] is inside the box or on its surface. *)
Definition in_closed_box (cb : Cube.t R) (p : Point R) : Prop :=
  let c := Cube.center_ cb in
  let h := Cube.size_ cb in
  x c - x h <= x p <= x c + x h
  /\ y c - y h <= y p <= y c + y h
  /\ z c - z h <= z p <= z c + z h.

End Vocabulary.

(** Concrete values for the runs on binary64. *)
Definition pt (a b c : float) : Point float := mkPoint a b c.

Definition mem0 : Mem float := mkMem (pt 7 7 7) 7%float [].

(** ** Proof tools *)

(** Unfolds the interface at [R_Scalar]. *)
Ltac on_reals :=
  cbv [fzero feps fadd fsub fmul fdiv fneg fsqr fsqrt fabs fltb R_Scalar] in *.

(** Unfolds the vector operations down to coefficients. *)
Ltac coefficients :=
  cbv [norm squaredNorm dot Point_add Point_sub Point_scale Point_Zero
       x y z] in *.

(** Unfolds the statements of a member function. *)
Ltac statements :=
  cbv [bind ret store_intersect_point store_intersect_dist cout_put
       intersect_point intersect_dist cout fst snd outputs].

(** ** Facts on the reals *)

Section RealFacts.

Local Open Scope R_scope.

Lemma Rltb_true (a b : R) : Rltb a b = true <-> a < b.
Proof.
  unfold Rltb. destruct (Rlt_dec a b); split; intro; try easy.
Qed.

Lemma Rltb_false (a b : R) : Rltb a b = false <-> b <= a.
Proof.
  unfold Rltb. destruct (Rlt_dec a b); split; intro; try easy; lra.
Qed.

Lemma std_max_Rmax (a b : R) : std_max a b = Rmax a b.
Proof.
  unfold std_max, Rmax. on_reals.
  destruct (Rltb a b) eqn:E; [apply Rltb_true in E | apply Rltb_false in E];
    destruct (Rle_dec a b); lra.
Qed.

Lemma maxCoeff_Rmax (u v w : R) :
  maxCoeff (mkPoint u v w) = Rmax (Rmax u v) w.
Proof.
  rewrite <- !std_max_Rmax. reflexivity.
Qed.

Lemma Rmax_nonpos (a b : R) : Rmax a b <= 0 <-> a <= 0 /\ b <= 0.
Proof. unfold Rmax. destruct (Rle_dec a b); lra. Qed.

Lemma sqrt_of_sqr (a e : R) : 0 <= a -> e = a * a -> sqrt e = a.
Proof. intros P ->. now apply sqrt_square. Qed.

Lemma squaredNorm_nonneg (v : Point R) : 0 <= squaredNorm v.
Proof.
  destruct v as [v1 v2 v3]. coefficients. on_reals. nra.
Qed.

Lemma norm_nonneg (v : Point R) : 0 <= norm v.
Proof. unfold norm. on_reals. apply sqrt_pos. Qed.

Lemma squaredNorm_sub_sym (u v : Point R) :
  squaredNorm (u - v)%pt = squaredNorm (v - u)%pt.
Proof.
  destruct u, v. coefficients. on_reals. ring.
Qed.

Lemma norm_sub_sym (u v : Point R) : norm (u - v)%pt = norm (v - u)%pt.
Proof. unfold norm. now rewrite squaredNorm_sub_sym. Qed.

Lemma norm_sub_self (u : Point R) : norm (u - u)%pt = 0.
Proof.
  destruct u as [u1 u2 u3]. coefficients. on_reals.
  apply sqrt_of_sqr; [lra | ring].
Qed.

End RealFacts.

(** Destructs the comparisons of a query read on the reals, turning each
    outcome into the inequality it stands for. *)
Ltac by_comparisons :=
  repeat match goal with
  | |- context [Rltb ?a ?b] =>
      let E := fresh "E" in
      destruct (Rltb a b) eqn:E;
      [apply Rltb_true in E | apply Rltb_false in E];
      try lra
  end.

(** ** Sphere: distance *)

(** On the reals: for every sphere and every point [p], the distance query returns
    the Euclidean distance from [p] to the centre minus the radius; at the
    centre it returns minus the radius; and its sign tells the side: it is
    negative exactly when [p] is strictly inside, zero exactly on the
    surface and positive exactly outside. *)
Theorem sphere_distance_signed (s : Sphere.t R) (p : Point R) :
  let c := Sphere.center_ s in
  let r := Sphere.radius_ s in
  (getDistanceToPoint (AsSphere s) p = norm (p - c)%pt - r
   /\ getDistanceToPoint (AsSphere s) c = - r
   /\ (norm (p - c)%pt < r <-> getDistanceToPoint (AsSphere s) p < 0)
   /\ (norm (p - c)%pt = r <-> getDistanceToPoint (AsSphere s) p = 0)
   /\ (norm (p - c)%pt > r <-> getDistanceToPoint (AsSphere s) p > 0))%R.
Proof.
  intros c r. cbn [getDistanceToPoint]. unfold Sphere.getDistanceToPoint.
  fold c r. rewrite (norm_sub_sym c p), (norm_sub_self c).
  on_reals. repeat split; intros; lra.
Qed.

(** ** Sphere: ray intersection *)

Section SphereRay.

Local Open Scope R_scope.

Variables (s : Sphere.t R) (o dir : Point R).

Lemma under_square_root_is_discriminant :
  (fsqr (dot dir (o - Sphere.center_ s)%pt)
   - squaredNorm (o - Sphere.center_ s)%pt + fsqr (Sphere.radius_ s))%fp
  = sphere_discriminant s o dir.
Proof.
  unfold sphere_discriminant, sphere_c, sphere_b. on_reals. ring.
Qed.

(** The statements of [Sphere::getRayIntersection] over the named
    quantities. *)
Lemma Sphere_getRayIntersection_cases (max_dist : R) (m : Mem R) :
  Sphere.getRayIntersection s o dir max_dist m =
    if Rltb (sphere_discriminant s o dir) 0 then (false, m)
    else if Rltb (sphere_near_root s o dir) 0 then (false, m)
    else if Rltb max_dist (sphere_near_root s o dir) then (false, m)
    else (true, mkMem (o + sphere_near_root s o dir *: dir)%pt
                      (sphere_near_root s o dir) (cout m)).
Proof.
  unfold Sphere.getRayIntersection.
  rewrite under_square_root_is_discriminant.
  change (- dot dir (o - Sphere.center_ s)%pt
          - fsqrt (sphere_discriminant s o dir))%fp
    with (sphere_near_root s o dir).
  change (@fltb R R_Scalar) with Rltb. change (@fzero R R_Scalar) with 0.
  destruct (Rltb (sphere_discriminant s o dir) 0); [reflexivity|].
  destruct (Rltb (sphere_near_root s o dir) 0); [reflexivity|].
  destruct (Rltb max_dist (sphere_near_root s o dir)); reflexivity.
Qed.

Lemma sqrt_discriminant_sqr :
  0 <= sphere_discriminant s o dir ->
  sqrt (sphere_discriminant s o dir) * sqrt (sphere_discriminant s o dir)
  = sphere_discriminant s o dir.
Proof. apply sqrt_sqrt. Qed.

(** Squared distance to the centre of the point at parameter [t] of a ray
    with unit direction. *)
Lemma ray_point_squared_distance (t : R) :
  squaredNorm dir = 1 ->
  squaredNorm (o + t *: dir - Sphere.center_ s)%pt
  = (t + sphere_b s o dir) ^ 2 - sphere_discriminant s o dir
    + Sphere.radius_ s ^ 2.
Proof.
  unfold sphere_discriminant, sphere_c, sphere_b.
  destruct dir as [d1 d2 d3], o as [o1 o2 o3], (Sphere.center_ s) as [c1 c2 c3].
  coefficients. on_reals. intros U.
  replace ((o1 + t * d1 - c1) * (o1 + t * d1 - c1)
           + (o2 + t * d2 - c2) * (o2 + t * d2 - c2)
           + (o3 + t * d3 - c3) * (o3 + t * d3 - c3))
    with (t ^ 2 * (d1 * d1 + d2 * d2 + d3 * d3)
          + 2 * t * (d1 * (o1 - c1) + d2 * (o2 - c2) + d3 * (o3 - c3))
          + ((o1 - c1) * (o1 - c1) + (o2 - c2) * (o2 - c2)
             + (o3 - c3) * (o3 - c3))) by ring.
  rewrite U. ring.
Qed.

Lemma near_root_on_sphere :
  squaredNorm dir = 1 -> 0 <= sphere_discriminant s o dir ->
  squaredNorm (o + sphere_near_root s o dir *: dir - Sphere.center_ s)%pt
  = Sphere.radius_ s ^ 2.
Proof.
  intros U D. rewrite (ray_point_squared_distance _ U).
  pose proof (sqrt_discriminant_sqr D) as Q.
  unfold sphere_near_root. nra.
Qed.

Lemma before_near_root_outside (t : R) :
  squaredNorm dir = 1 -> 0 <= sphere_discriminant s o dir ->
  t < sphere_near_root s o dir ->
  squaredNorm (o + t *: dir - Sphere.center_ s)%pt > Sphere.radius_ s ^ 2.
Proof.
  intros U D L. rewrite (ray_point_squared_distance _ U).
  pose proof (sqrt_discriminant_sqr D) as Q.
  pose proof (sqrt_pos (sphere_discriminant s o dir)) as P.
  unfold sphere_near_root in L. nra.
Qed.

Lemma near_root_le_far_root :
  sphere_near_root s o dir <= sphere_far_root s o dir.
Proof.
  pose proof (sqrt_pos (sphere_discriminant s o dir)) as P.
  unfold sphere_near_root, sphere_far_root. lra.
Qed.

End SphereRay.

(** On the reals, for every sphere and every ray: a negative
    discriminant [b^2 - c] gives no result; otherwise the query takes the
    smaller root [d = -b - sqrt(discriminant)], gives no result when [d < 0]
    or [d > maxDistance], and otherwise stores the point
    [origin + d * direction] and the distance [d] and reports a hit.  [d] never
    exceeds the other root, and for a unit direction the stored point lies on
    the sphere and no point of the ray before it does: it is the entry, not
    the exit.  For the unit sphere at the origin and the ray from [(-5,0,0)]
    along [(1,0,0)] the hit is [(-1,0,0)] at distance [4], before the far
    root. *)
Theorem sphere_ray_near_intersection :
  (forall (s : Sphere.t R) (o dir : Point R) (max_dist : R) (m : Mem R),
     let disc := sphere_discriminant s o dir in
     let d := sphere_near_root s o dir in
     let res := getRayIntersection (AsSphere s) o dir max_dist m in
     (disc < 0 -> res = (false, m))
     /\ (0 <= disc -> d < 0 \/ d > max_dist -> res = (false, m))
     /\ (0 <= disc -> 0 <= d <= max_dist ->
         res = (true, mkMem (o + d *: dir)%pt d (cout m)))
     /\ d <= sphere_far_root s o dir
     /\ (squaredNorm dir = 1 -> 0 <= disc ->
         squaredNorm (o + d *: dir - Sphere.center_ s)%pt
           = Sphere.radius_ s ^ 2
         /\ forall t, t < d ->
            squaredNorm (o + t *: dir - Sphere.center_ s)%pt
              > Sphere.radius_ s ^ 2))%R
  /\ (forall (max_dist : R) (m : Mem R),
        let s := Sphere.new (mkPoint 0 0 0) 1 in
        let o := mkPoint (-5) 0 0 in
        let dir := mkPoint 1 0 0 in
        4 <= max_dist ->
        getRayIntersection (AsSphere s) o dir max_dist m
          = (true, mkMem (mkPoint (-1) 0 0) 4 (cout m))
        /\ 4 < sphere_far_root s o dir)%R.
Proof.
  split.
  - intros s o dir max_dist m disc d res.
    assert (R : res =
      if Rltb disc 0 then (false, m)
      else if Rltb d 0 then (false, m)
      else if Rltb max_dist d then (false, m)
      else (true, mkMem (o + d *: dir)%pt d (cout m)))
      by apply Sphere_getRayIntersection_cases.
    repeat split.
    + intros L. rewrite R. by_comparisons. reflexivity.
    + intros D [L | L]; rewrite R; by_comparisons; reflexivity.
    + intros D [L1 L2]. rewrite R. by_comparisons. reflexivity.
    + apply near_root_le_far_root.
    + now apply near_root_on_sphere.
    + intros t L. now apply before_near_root_outside.
  - intros max_dist m s o dir L.
    assert (D : sphere_discriminant s o dir = 1%R).
    { unfold sphere_discriminant, sphere_c, sphere_b. cbn. on_reals. ring. }
    assert (N : sphere_near_root s o dir = 4%R).
    { unfold sphere_near_root. rewrite D, sqrt_1.
      unfold sphere_b. cbn. on_reals. ring. }
    split.
    + cbn [getRayIntersection]. rewrite Sphere_getRayIntersection_cases.
      rewrite D, N. by_comparisons.
      f_equal. f_equal. unfold o, dir. coefficients. on_reals.
      f_equal; ring.
    + unfold sphere_far_root. rewrite D, sqrt_1.
      unfold sphere_b. cbn. on_reals. lra.
Qed.

(** The ray from [(-5,0,0)] along the unit vector [(1,0,0)] enters the
    unit sphere at the origin at its smaller root. *)
Lemma unit_ray_entry_witness :
  let s := Sphere.new (mkPoint 0 0 0)%R 1%R in
  let o := mkPoint (-5)%R 0%R 0%R in
  let dir := mkPoint 1%R 0%R 0%R in
  (squaredNorm dir = 1
   /\ 0 <= sphere_discriminant s o dir
   /\ squaredNorm (o + sphere_near_root s o dir *: dir - Sphere.center_ s)%pt
      = Sphere.radius_ s ^ 2)%R.
Proof.
  intros s o dir.
  assert (U : squaredNorm dir = 1%R) by (cbn; on_reals; ring).
  assert (D : (0 <= sphere_discriminant s o dir)%R).
  { replace (sphere_discriminant s o dir) with 1%R; [lra |].
    unfold sphere_discriminant, sphere_c, sphere_b. cbn. on_reals. ring. }
  split; [exact U | split; [exact D |]].
  destruct sphere_ray_near_intersection as [G _].
  destruct (G s o dir 0%R (mkMem o 0%R [])) as (_ & _ & _ & _ & E).
  exact (proj1 (E U D)).
Defined.

(** ** Plane: distance *)

Lemma norm_axis_z (k : R) : (0 <= k)%R -> norm (mkPoint 0%R 0%R k) = k.
Proof.
  intros P. coefficients. on_reals. apply sqrt_of_sqr; [assumption | ring].
Qed.

Lemma Plane_getDistanceToPoint_formula (pl : Plane.t R) (p : Point R) :
  Plane.getDistanceToPoint pl p
  = (dot (Plane.normal_ pl) p + plane_offset pl / norm (Plane.normal_ pl))%R.
Proof. reflexivity. Qed.

(** C3, as the header computes it. For every plane and every point the
    distance query returns [normal . point + d / |normal|] with
    [d = -(normal . center)]: the norm divides the offset alone.  When the
    normal has unit length this is [(normal . point + d) / |normal|]. *)
Theorem plane_distance_offset_over_norm (pl : Plane.t R) (p : Point R) :
  let n := Plane.normal_ pl in
  let d := plane_offset pl in
  (getDistanceToPoint (AsPlane pl) p = dot n p + d / norm n
   /\ (norm n = 1 ->
       getDistanceToPoint (AsPlane pl) p = (dot n p + d) / norm n))%R.
Proof.
  intros n d. cbn [getDistanceToPoint].
  rewrite Plane_getDistanceToPoint_formula. fold n d.
  split; [reflexivity | intros U].
  rewrite U. field.
Qed.

(** The plane through [(1,2,3)] with normal [(0,0,1)], seen from
    [(4,5,6)]. *)
Lemma plane_distance_unit_normal_witness :
  let pl := Plane.new (mkPoint 1 2 3)%R (mkPoint 0 0 1)%R in
  let p := (mkPoint 4 5 6)%R in
  (norm (Plane.normal_ pl) = 1
   /\ getDistanceToPoint (AsPlane pl) p
      = (dot (Plane.normal_ pl) p + plane_offset pl) / norm (Plane.normal_ pl)
   /\ getDistanceToPoint (AsPlane pl) p = 3)%R.
Proof.
  intros pl p.
  assert (U : norm (Plane.normal_ pl) = 1%R) by (apply norm_axis_z; lra).
  destruct (plane_distance_offset_over_norm pl p) as [E1 E2].
  split; [exact U | split; [exact (E2 U) |]].
  rewrite E1, U. unfold plane_offset. cbn. on_reals. field.
Defined.

(** C3, as stated, fails for a normal of length 2: for the plane through
    the origin with normal [(0,0,2)] and the point [(0,0,1)] the query
    returns [2], while [(normal . point + d) / |normal|] is [1]. *)
Lemma plane_distance_not_renormalized :
  let pl := Plane.new (mkPoint 0 0 0)%R (mkPoint 0 0 2)%R in
  let p := (mkPoint 0 0 1)%R in
  (getDistanceToPoint (AsPlane pl) p = 2
   /\ (dot (Plane.normal_ pl) p + plane_offset pl) / norm (Plane.normal_ pl) = 1
   /\ getDistanceToPoint (AsPlane pl) p
      <> (dot (Plane.normal_ pl) p + plane_offset pl) / norm (Plane.normal_ pl))%R.
Proof.
  intros pl p.
  assert (U : norm (Plane.normal_ pl) = 2%R) by (apply norm_axis_z; lra).
  assert (A : getDistanceToPoint (AsPlane pl) p = 2%R).
  { cbn [getDistanceToPoint]. rewrite Plane_getDistanceToPoint_formula, U. unfold plane_offset. cbn. on_reals. field. }
  assert (B : ((dot (Plane.normal_ pl) p + plane_offset pl)
               / norm (Plane.normal_ pl) = 1)%R).
  { rewrite U. unfold plane_offset. cbn. on_reals. field. }
  split; [exact A | split; [exact B |]].
  rewrite A, B. lra.
Qed.

(** ** Plane: ray intersection *)

(** The statements of [Plane::getRayIntersection] over the named
    quantities.  Whenever the ray is not rejected as parallel, the value of
    [d] goes to [std::cout] before the range tests. *)
Lemma Plane_getRayIntersection_cases
    (pl : Plane.t R) (o dir : Point R) (max_dist : R) (m : Mem R) :
  let d := plane_d pl o dir in
  let printed := cout m ++ plane_trace d in
  Plane.getRayIntersection pl o dir max_dist m =
    if Rltb (Rabs (plane_denominator pl dir)) (1 / 1000000) then (false, m)
    else if Rltb d 0
      then (false, mkMem (intersect_point m) (intersect_dist m) printed)
    else if Rltb max_dist d
      then (false, mkMem (intersect_point m) (intersect_dist m) printed)
    else (true, mkMem (o + d *: dir)%pt d printed).
Proof.
  intros d printed. destruct m as [ip id co]. cbn [cout] in printed.
  unfold Plane.getRayIntersection.
  change (dot (Plane.center_ pl - o)%pt (Plane.normal_ pl)
          / dot dir (Plane.normal_ pl))%fp with d.
  change (dot dir (Plane.normal_ pl)) with (plane_denominator pl dir).
  change (@fltb R R_Scalar) with Rltb. change (@fzero R R_Scalar) with 0%R.
  change (@feps R R_Scalar) with (1 / 1000000)%R.
  change (@fabs R R_Scalar) with Rabs.
  assert (A : ((co ++ [put_string "d: "]) ++ [put_FloatingPoint d])
              ++ [put_endl] = printed).
  { unfold printed, plane_trace. now rewrite <- !app_assoc. }
  destruct (Rltb (Rabs (plane_denominator pl dir)) (1 / 1000000));
    [reflexivity|].
  statements.
  destruct (Rltb d 0); [now rewrite A|].
  destruct (Rltb max_dist d); now rewrite A.
Qed.

(** On the reals, for every plane and every ray: when
    [|direction . normal| < 1e-6] the query gives no result, wherever the
    origin lies, on the plane included; otherwise it computes
    [d = ((center - origin) . normal) / (direction . normal)], gives no
    result when [d < 0] or [d > maxDistance], and otherwise stores
    [origin + d * direction] and [d] and reports a hit.  For the plane
    through the origin with normal [(0,0,1)] and the ray from [(0,0,5)] along
    [(0,0,-1)] with range [10] the hit is [(0,0,0)] at distance [5]. *)
Theorem plane_ray_intersection :
  (forall (pl : Plane.t R) (o dir : Point R) (max_dist : R) (m : Mem R),
     let den := plane_denominator pl dir in
     let d := plane_d pl o dir in
     let res := getRayIntersection (AsPlane pl) o dir max_dist m in
     (Rabs den < 1 / 1000000 -> res = (false, m))
     /\ (1 / 1000000 <= Rabs den -> d < 0 \/ d > max_dist ->
         fst res = false /\ outputs (snd res) = outputs m)
     /\ (1 / 1000000 <= Rabs den -> 0 <= d <= max_dist ->
         fst res = true /\ outputs (snd res) = ((o + d *: dir)%pt, d)))%R
  /\ (forall (pl : Plane.t R) (o dir : Point R) (max_dist : R) (m : Mem R),
        dot (o - Plane.center_ pl)%pt (Plane.normal_ pl) = 0 ->
        dot dir (Plane.normal_ pl) = 0 ->
        getRayIntersection (AsPlane pl) o dir max_dist m = (false, m))%R
  /\ (forall m : Mem R,
        let pl := Plane.new (mkPoint 0 0 0) (mkPoint 0 0 1) in
        getRayIntersection (AsPlane pl) (mkPoint 0 0 5) (mkPoint 0 0 (-1)) 10 m
        = (true, mkMem (mkPoint 0 0 0) 5 (cout m ++ plane_trace 5)))%R.
Proof.
  split; [| split].
  - intros pl o dir max_dist m den d res.
    assert (R : res = _) by apply Plane_getRayIntersection_cases.
    cbv zeta in R. fold den d in R.
    repeat split; intros; rewrite R; by_comparisons; reflexivity.
  - intros pl o dir max_dist m _ P. cbn [getRayIntersection].
    rewrite Plane_getRayIntersection_cases. cbv zeta.
    unfold plane_denominator. rewrite P, Rabs_R0. by_comparisons. reflexivity.
  - intros m pl. cbn [getRayIntersection].
    rewrite Plane_getRayIntersection_cases. cbv zeta.
    assert (D : (plane_denominator pl (mkPoint 0 0 (-1)) = -1)%R).
    { unfold plane_denominator. cbn. on_reals. ring. }
    assert (E : (plane_d pl (mkPoint 0 0 5) (mkPoint 0 0 (-1)) = 5)%R).
    { unfold plane_d. rewrite D. cbn. on_reals. field. }
    rewrite D, E.
    replace (Rabs (-1)) with 1%R
      by (rewrite Rabs_left; lra).
    by_comparisons. f_equal. f_equal. coefficients. on_reals. f_equal; ring.
Qed.

(** A ray lying in the plane [z = 0]. *)
Lemma ray_in_plane_witness :
  let pl := Plane.new (mkPoint 0 0 0)%R (mkPoint 0 0 1)%R in
  let o := mkPoint 3%R 4%R 0%R in
  let dir := mkPoint 1%R 0%R 0%R in
  let m := mkMem (mkPoint 7 7 7)%R 7%R [] in
  (dot (o - Plane.center_ pl)%pt (Plane.normal_ pl) = 0
   /\ dot dir (Plane.normal_ pl) = 0)%R
  /\ getRayIntersection (AsPlane pl) o dir 10%R m = (false, m).
Proof.
  intros pl o dir m.
  assert (A : dot (o - Plane.center_ pl)%pt (Plane.normal_ pl) = 0%R)
    by (cbn; on_reals; ring).
  assert (B : dot dir (Plane.normal_ pl) = 0%R) by (cbn; on_reals; ring).
  split; [split; [exact A | exact B] |].
  destruct plane_ray_intersection as (_ & G & _).
  exact (G pl o dir 10%R m A B).
Defined.

(** ** Cube: distance *)

(** The statements of [Cube::getDistanceToPoint] over the named
    quantities. *)
Lemma Cube_getDistanceToPoint_cases (cb : Cube.t R) (p : Point R) :
  Cube.getDistanceToPoint cb p =
    if Rltb (cube_clamped_norm cb p) (1 / 1000000)
    then cube_fallback cb p
    else cube_clamped_norm cb p.
Proof.
  unfold Cube.getDistanceToPoint. cbv zeta.
  rewrite maxCoeff_Rmax, !std_max_Rmax.
  unfold cube_clamped_norm, cube_fallback, clamped_term, unclamped_term.
  unfold norm, squaredNorm. cbn [x y z]. on_reals.
  set (tx := Rmax (Rmax _ 0) _). set (ty := Rmax (Rmax _ 0) _).
  set (tz := Rmax (Rmax _ 0) _).
  replace (tx ^ 2 + ty ^ 2 + tz ^ 2)%R with (tx * tx + ty * ty + tz * tz)%R
    by ring.
  reflexivity.
Qed.

Lemma cube_fallback_nonpos (cb : Cube.t R) (p : Point R) :
  (cube_fallback cb p <= 0)%R <-> in_closed_box cb p.
Proof.
  unfold cube_fallback, in_closed_box, unclamped_term. cbv zeta.
  rewrite !Rmax_nonpos. split; intros; lra.
Qed.

(** Evaluates [Rmax] on closed arguments. *)
Ltac eval_Rmax :=
  unfold Rmax; repeat (destruct (Rle_dec _ _); try lra).

Lemma unit_cube_clamped_norm_outside :
  (cube_clamped_norm (Cube.new (mkPoint 0 0 0) (mkPoint 1 1 1))
     (mkPoint 3 0 0) = 2)%R.
Proof.
  unfold cube_clamped_norm, clamped_term. cbn.
  apply sqrt_of_sqr; [lra|]. eval_Rmax.
Qed.

Lemma unit_cube_clamped_norm_inside :
  (cube_clamped_norm (Cube.new (mkPoint 0 0 0) (mkPoint 1 1 1))
     (mkPoint 0 0 0) = 0)%R.
Proof.
  unfold cube_clamped_norm, clamped_term. cbn.
  apply sqrt_of_sqr; [lra|]. eval_Rmax.
Qed.

(** On the reals, for every cuboid and every point: the distance
    query takes, per axis, [max(max(c - h - p, 0), p - c - h)] and returns
    the Euclidean norm of the three terms, unless that norm is below [1e-6];
    then it returns the largest of the three terms
    [max(c - h - p, p - c - h)], a value that is non-positive exactly for the
    points inside the box or on its surface and positive exactly for the
    points outside.  For the cuboid centred at the origin with half-extents
    [(1,1,1)] the distance of [(3,0,0)] is [2] and that of the origin is
    [-1]. *)
Theorem cube_distance_two_branches :
  (forall (cb : Cube.t R) (p : Point R),
     let n := cube_clamped_norm cb p in
     let fb := cube_fallback cb p in
     (1 / 1000000 <= n -> getDistanceToPoint (AsCube cb) p = n)
     /\ (n < 1 / 1000000 -> getDistanceToPoint (AsCube cb) p = fb)
     /\ (fb <= 0 <-> in_closed_box cb p)
     /\ (0 < fb <-> ~ in_closed_box cb p))%R
  /\ (let cb := Cube.new (mkPoint 0 0 0) (mkPoint 1 1 1) in
      getDistanceToPoint (AsCube cb) (mkPoint 3 0 0) = 2
      /\ getDistanceToPoint (AsCube cb) (mkPoint 0 0 0) = -1)%R.
Proof.
  split.
  - intros cb p n fb. cbn [getDistanceToPoint].
    rewrite Cube_getDistanceToPoint_cases. fold n fb.
    pose proof (cube_fallback_nonpos cb p) as I. fold fb in I.
    split; [| split; [| split; [exact I | split]]].
    + intros L. by_comparisons.
    + intros L. by_comparisons.
    + intros L B. apply I in B. lra.
    + intros B. apply Rnot_le_lt. tauto.
  - intros cb. cbn [getDistanceToPoint].
    rewrite !Cube_getDistanceToPoint_cases.
    unfold cb.
    rewrite unit_cube_clamped_norm_outside, unit_cube_clamped_norm_inside. split; by_comparisons.
    unfold cube_fallback, unclamped_term. cbn. eval_Rmax.
Qed.

(** The point [(3,0,0)] is far enough from the unit cube for the first
    branch. *)
Lemma cube_norm_branch_witness :
  let cb := Cube.new (mkPoint 0 0 0)%R (mkPoint 1 1 1)%R in
  let p := mkPoint 3%R 0%R 0%R in
  (1 / 1000000 <= cube_clamped_norm cb p)%R
  /\ getDistanceToPoint (AsCube cb) p = cube_clamped_norm cb p.
Proof.
  intros cb p.
  assert (L : (1 / 1000000 <= cube_clamped_norm cb p)%R).
  { unfold cb, p. rewrite unit_cube_clamped_norm_outside. lra. }
  split; [exact L |].
  destruct cube_distance_two_branches as [G _].
  exact (proj1 (G cb p) L).
Defined.

(** ** Every object, on any arithmetic *)

(** Opens a virtual call of [getRayIntersection] and follows each of its
    tests both ways. *)
Ltac both_ways :=
  cbn [getRayIntersection];
  unfold Object.getRayIntersection, Cube.getRayIntersection,
    Sphere.getRayIntersection, Plane.getRayIntersection;
  cbv zeta;
  repeat match goal with
  | |- context [if ?c then _ else _] => destruct c eqn:?
  end;
  statements.

Section AnyArithmetic.

Context {F : Type} {SF : Scalar F}.

Variables (obj : AnyObject F) (ray_origin ray_direction : Point F).
Variables (max_dist : F) (m : Mem F).

(** A call that reports no intersection has written to neither output
    location. *)
Lemma no_hit_no_write :
  fst (getRayIntersection obj ray_origin ray_direction max_dist m) = false ->
  outputs (snd (getRayIntersection obj ray_origin ray_direction max_dist m))
  = outputs m.
Proof.
  destruct m as [ip id co], obj as [b0 | s | c | p]; both_ways;
    intros; try reflexivity; discriminate.
Qed.

(** A call that reports a hit has stored a distance [d] that passed both
    range tests, and the point [ray_origin + d * ray_direction]. *)
Lemma hit_writes_tested_distance :
  fst (getRayIntersection obj ray_origin ray_direction max_dist m) = true ->
  let m' := snd (getRayIntersection obj ray_origin ray_direction max_dist m) in
  (intersect_dist m' <? fzero)%fp = false
  /\ (intersect_dist m' >? max_dist)%fp = false
  /\ intersect_point m'
     = (ray_origin + intersect_dist m' *: ray_direction)%pt.
Proof.
  destruct m as [ip id co], obj as [b0 | s | c | p]; both_ways;
    intros; try discriminate; auto.
Qed.

(** The value returned, and on a hit the values stored, do not depend on
    the state the call starts from. *)
Lemma result_independent_of_state (m' : Mem F) :
  fst (getRayIntersection obj ray_origin ray_direction max_dist m')
  = fst (getRayIntersection obj ray_origin ray_direction max_dist m)
  /\ (fst (getRayIntersection obj ray_origin ray_direction max_dist m) = true ->
      outputs (snd (getRayIntersection obj ray_origin ray_direction max_dist m'))
      = outputs (snd (getRayIntersection obj ray_origin ray_direction max_dist m))).
Proof.
  destruct m as [ip id co], m' as [ip' id' co'], obj as [b0 | s | c | p];
    both_ways; split; intros; try reflexivity; discriminate.
Qed.

(** A call only appends to [std::cout], and what it appends is fixed by
    the object and the ray. *)
Lemma appended_text :
  exists t : list (Output F),
    forall m0 : Mem F,
      cout (snd (getRayIntersection obj ray_origin ray_direction max_dist m0))
      = (cout m0 ++ t)%list.
Proof.
  destruct obj as [b0 | s | c | p]; cbn [getRayIntersection];
    unfold Object.getRayIntersection, Cube.getRayIntersection,
      Sphere.getRayIntersection, Plane.getRayIntersection; cbv zeta.
  - exists []. intros [ip id co]. statements. now rewrite app_nil_r.
  - exists []. intros [ip id co].
    repeat match goal with
    | |- context [if ?c then _ else _] => destruct c
    end; statements; now rewrite app_nil_r.
  - exists []. intros [ip id co]. statements. now rewrite app_nil_r.
  - destruct (_ <? _)%fp.
    + exists []. intros [ip id co]. statements. now rewrite app_nil_r.
    + eexists. intros [ip id co].
      repeat match goal with
      | |- context [if ?c then _ else _] => destruct c
      end; statements; rewrite <- !app_assoc; reflexivity.
Qed.

End AnyArithmetic.

(** ** Cube: ray intersection *)

(** C1, as the header behaves. On any arithmetic, for every cube, ray and
    range, the ray query runs the member inherited from [Object]: it returns
    [false] and changes nothing.  Whatever call on whatever object reports no
    intersection, it hands its caller the same return value and the same
    output locations as the call on the cube: nothing tells them apart. *)
Theorem cube_ray_query_is_default_miss :
  forall (F : Type) (SF : Scalar F) (c : Cube.t F)
         (ray_origin ray_direction : Point F) (max_dist : F) (m : Mem F),
    let on_cube :=
      getRayIntersection (AsCube c) ray_origin ray_direction max_dist m in
    on_cube = (false, m)
    /\ on_cube = Object.getRayIntersection (Cube.base c)
                   ray_origin ray_direction max_dist m
    /\ forall (other : AnyObject F) (o' d' : Point F) (max' : F),
         let miss := getRayIntersection other o' d' max' m in
         fst miss = false ->
         fst miss = fst on_cube /\ outputs (snd miss) = outputs (snd on_cube).
Proof.
  intros F SF c ray_origin ray_direction max_dist m on_cube.
  split; [reflexivity | split; [reflexivity |]].
  intros other o' d' max' miss N. split; [exact N |].
  now apply no_hit_no_write.
Qed.

(** On binary64: a sphere the ray misses, next to a cube the ray runs
    through. *)
Lemma miss_like_cube_witness :
  let cube := AsCube (Cube.new (pt 0 0 0) (pt 1 1 1)) in
  let other := AsSphere (Sphere.new (pt 0 100 0) 1%float) in
  let o := pt (-5) 0 0 in
  let dir := pt 1 0 0 in
  fst (getRayIntersection other o dir 10%float mem0) = false
  /\ outputs (snd (getRayIntersection other o dir 10%float mem0))
     = outputs (snd (getRayIntersection cube o dir 10%float mem0)).
Proof.
  intros cube other o dir.
  assert (N : fst (getRayIntersection other o dir 10%float mem0) = false)
    by (vm_compute; reflexivity).
  split; [exact N |].
  destruct (cube_ray_query_is_default_miss float_Scalar
              (Cube.new (pt 0 0 0) (pt 1 1 1)) o dir 10%float mem0)
    as (_ & _ & G).
  exact (proj2 (G other o dir 10%float N)).
Defined.

(** C1, as stated, fails: the ray from [(-5,0,0)] along [(1,0,0)] runs
    through the cube centred at the origin with half-extents [(1,1,1)], and
    misses the unit sphere centred at [(0,100,0)]; the two calls end in the
    same return value and the same state. *)
Lemma cube_ray_query_same_as_real_miss :
  let cube := Cube.new (mkPoint 0 0 0)%R (mkPoint 1 1 1)%R in
  let sphere := Sphere.new (mkPoint 0 100 0)%R 1%R in
  let o := mkPoint (-5)%R 0%R 0%R in
  let dir := mkPoint 1%R 0%R 0%R in
  let m := mkMem (mkPoint 7 7 7)%R 7%R [] in
  getRayIntersection (AsCube cube) o dir 10%R m = (false, m)
  /\ getRayIntersection (AsSphere sphere) o dir 10%R m = (false, m)
  /\ getRayIntersection (AsCube cube) o dir 10%R m
     = getRayIntersection (AsSphere sphere) o dir 10%R m.
Proof.
  intros cube sphere o dir m.
  assert (S : getRayIntersection (AsSphere sphere) o dir 10%R m = (false, m)).
  { cbn [getRayIntersection]. rewrite Sphere_getRayIntersection_cases.
    assert (D : sphere_discriminant sphere o dir = (-9999)%R).
    { unfold sphere_discriminant, sphere_c, sphere_b. cbn. on_reals. ring. }
    rewrite D. by_comparisons. reflexivity. }
  split; [reflexivity | split; [exact S | now rewrite S]].
Qed.

(** ** Output locations *)

(** C9. On any arithmetic, for every object and every input: a call that
    returns [false] leaves both output locations as they were; a call that
    returns [true] has stored in them the point and the distance of the
    hit. *)
Theorem outputs_written_only_on_hit :
  forall (F : Type) (SF : Scalar F) (obj : AnyObject F)
         (ray_origin ray_direction : Point F) (max_dist : F) (m : Mem F),
    let res := getRayIntersection obj ray_origin ray_direction max_dist m in
    (fst res = false ->
       intersect_point (snd res) = intersect_point m
       /\ intersect_dist (snd res) = intersect_dist m)
    /\ (fst res = true ->
       intersect_point (snd res)
         = (ray_origin + intersect_dist (snd res) *: ray_direction)%pt
       /\ (intersect_dist (snd res) <? fzero)%fp = false
       /\ (intersect_dist (snd res) >? max_dist)%fp = false).
Proof.
  intros F SF obj ray_origin ray_direction max_dist m res. split.
  - intros N. apply no_hit_no_write in N. fold res in N.
    unfold outputs in N. now inversion N.
  - intros Y. apply hit_writes_tested_distance in Y. cbv zeta in Y.
    fold res in Y. tauto.
Qed.

(** On binary64: the unit sphere centred at [(0,100,0)] is missed, and the
    locations still hold what [mem0] put there. *)
Lemma outputs_untouched_witness :
  let res :=
    getRayIntersection (AsSphere (Sphere.new (pt 0 100 0) 1%float))
      (pt (-5) 0 0) (pt 1 0 0) 10%float mem0 in
  fst res = false
  /\ intersect_point (snd res) = pt 7 7 7
  /\ intersect_dist (snd res) = 7%float.
Proof.
  intros res.
  assert (N : fst res = false) by (vm_compute; reflexivity).
  split; [exact N |].
  exact (proj1 (outputs_written_only_on_hit float_Scalar
                  (AsSphere (Sphere.new (pt 0 100 0) 1%float))
                  (pt (-5) 0 0) (pt 1 0 0) 10%float mem0) N).
Defined.

(** ** Determinism *)

Section Asking.

Context {F : Type} {SF : Scalar F}.

Variables (obj : AnyObject F) (q : Query F).

Lemma ask_ray (o d : Point F) (k : F) (m : Mem F) :
  ask obj (AskRayIntersection o d k) m
  = (RayIntersection (fst (getRayIntersection obj o d k m)),
     snd (getRayIntersection obj o d k m)).
Proof.
  cbn [ask]. unfold bind, ret.
  now destruct (getRayIntersection obj o d k m).
Qed.

(** The answer does not depend on the state the query starts from, and
    neither do the output locations after a hit. *)
Lemma answer_independent_of_state (m m' : Mem F) :
  fst (ask obj q m') = fst (ask obj q m)
  /\ (is_hit (fst (ask obj q m)) = true ->
      outputs (snd (ask obj q m')) = outputs (snd (ask obj q m))).
Proof.
  destruct q as [point | o d k |].
  - split; [reflexivity | discriminate].
  - rewrite !ask_ray. cbn [fst snd is_hit].
    destruct (result_independent_of_state obj o d k m m') as [V W].
    split; [now rewrite V | exact W].
  - split; [reflexivity | discriminate].
Qed.

(** Without a hit the output locations stay as they were. *)
Lemma no_hit_answer_no_write (m : Mem F) :
  is_hit (fst (ask obj q m)) = false ->
  outputs (snd (ask obj q m)) = outputs m.
Proof.
  destruct q as [point | o d k |]; try reflexivity.
  rewrite ask_ray. cbn [fst snd is_hit]. apply no_hit_no_write.
Qed.

(** A query only appends to [std::cout], a text fixed by the object and
    the query. *)
Lemma ask_appended_text :
  exists t : list (Output F),
    forall m0 : Mem F, cout (snd (ask obj q m0)) = (cout m0 ++ t)%list.
Proof.
  destruct q as [point | o d k |].
  - exists []. intros m0. cbn. now rewrite app_nil_r.
  - destruct (appended_text obj o d k) as [t T]. exists t. intros m0.
    rewrite ask_ray. apply T.
  - exists []. intros m0. cbn. now rewrite app_nil_r.
Qed.

End Asking.

(** On any arithmetic, for every object and every query (distance,
    ray intersection, colour) with its inputs: asked twice in a row, the
    query answers the same both times and leaves the output locations after
    the second call as after the first; its answer, and on a hit what it
    stores, are the same from whatever state it starts, in particular after
    any other query on the same object: no query changes what the object
    answers later.  A query takes the object as a read-only argument and
    hands none back; all it adds to is [std::cout], by a text fixed by the
    object and the query. *)
Theorem queries_are_deterministic :
  forall (F : Type) (SF : Scalar F) (obj : AnyObject F) (q : Query F)
         (m : Mem F),
    (fst (ask obj q (snd (ask obj q m))) = fst (ask obj q m)
     /\ outputs (snd (ask obj q (snd (ask obj q m))))
        = outputs (snd (ask obj q m)))
    /\ (forall m' : Mem F,
          fst (ask obj q m') = fst (ask obj q m)
          /\ (is_hit (fst (ask obj q m)) = true ->
              outputs (snd (ask obj q m')) = outputs (snd (ask obj q m))))
    /\ (forall q' : Query F,
          fst (ask obj q (snd (ask obj q' m))) = fst (ask obj q m))
    /\ (exists t : list (Output F),
          forall m0 : Mem F, cout (snd (ask obj q m0)) = (cout m0 ++ t)%list).
Proof.
  intros F SF obj q m.
  destruct (answer_independent_of_state obj q m (snd (ask obj q m)))
    as [V W].
  split; [split | split; [| split]].
  - exact V.
  - destruct (is_hit (fst (ask obj q m))) eqn:E.
    + now apply W.
    + apply no_hit_answer_no_write. now rewrite V.
  - intros m'. apply answer_independent_of_state.
  - intros q'. apply answer_independent_of_state.
  - apply ask_appended_text.
Qed.

(** On binary64: the same hit from two different states. *)
Lemma same_hit_from_any_state_witness :
  let obj := AsSphere (Sphere.new (pt 0 0 0) 1%float) in
  let q := AskRayIntersection (pt (-5) 0 0) (pt 1 0 0) 10%float in
  let m' := mkMem (pt 1 2 3) 9%float [put_endl] in
  is_hit (fst (ask obj q mem0)) = true
  /\ outputs (snd (ask obj q m')) = outputs (snd (ask obj q mem0)).
Proof.
  intros obj q m'.
  assert (Y : is_hit (fst (ask obj q mem0)) = true)
    by (vm_compute; reflexivity).
  split; [exact Y |].
  destruct (queries_are_deterministic float_Scalar obj q mem0)
    as (_ & G & _).
  exact (proj2 (G m') Y).
Defined.

(** ** The range of a hit *)

(** On the reals, for every object and every
    ray: the ray query returns no result whenever [maxDistance < 0], and a
    hit is reported only for a distance in the closed interval
    [[0, maxDistance]]. *)
Theorem ray_hit_within_closed_range
    (obj : AnyObject R) (o dir : Point R) (max_dist : R) (m : Mem R) :
  let res := getRayIntersection obj o dir max_dist m in
  ((max_dist < 0 -> fst res = false)
   /\ (fst res = true -> 0 <= intersect_dist (snd res) <= max_dist))%R.
Proof.
  intros res.
  assert (H : fst res = true ->
              (0 <= intersect_dist (snd res) <= max_dist)%R).
  { intros Y. apply hit_writes_tested_distance in Y. cbv zeta in Y.
    fold res in Y. destruct Y as (A & B & _).
    apply Rltb_false in A. apply Rltb_false in B.
    change (@fzero R R_Scalar) with 0%R in A. lra. }
  split; [| exact H].
  intros L. destruct (fst res); [| reflexivity].
  specialize (H eq_refl). lra.
Qed.

(** With range [-1] the unit sphere at the origin is not hit from
    [(-5,0,0)]. *)
Lemma negative_range_witness :
  fst (getRayIntersection (AsSphere (Sphere.new (mkPoint 0 0 0) 1))
         (mkPoint (-5) 0 0) (mkPoint 1 0 0) (-1) (mkMem (mkPoint 7 7 7) 7 []))%R
  = false.
Proof.
  apply (ray_hit_within_closed_range
           (AsSphere (Sphere.new (mkPoint 0 0 0) 1))
           (mkPoint (-5) 0 0) (mkPoint 1 0 0) (-1)
           (mkMem (mkPoint 7 7 7) 7 []))%R.
  lra.
Defined.

(** On the reals, at range [0]: the ray from [(-1,0,0)], a point
    of the unit sphere at the origin, along [(1,0,0)] is answered with a hit
    at distance [0], which is outside [(0, maxDistance]]. *)
Lemma hit_at_distance_zero_with_range_zero :
  let s := Sphere.new (mkPoint 0 0 0)%R 1%R in
  let m := mkMem (mkPoint 7 7 7)%R 7%R [] in
  (0 <= 0)%R
  /\ getRayIntersection (AsSphere s) (mkPoint (-1) 0 0)%R (mkPoint 1 0 0)%R
       0%R m
     = (true, mkMem (mkPoint (-1) 0 0)%R 0%R []).
Proof.
  intros s m. split; [lra |].
  cbn [getRayIntersection]. rewrite Sphere_getRayIntersection_cases.
  assert (D : (sphere_discriminant s (mkPoint (-1) 0 0) (mkPoint 1 0 0) = 1)%R).
  { unfold sphere_discriminant, sphere_c, sphere_b. cbn. on_reals. ring. }
  assert (N : (sphere_near_root s (mkPoint (-1) 0 0) (mkPoint 1 0 0) = 0)%R).
  { unfold sphere_near_root. rewrite D, sqrt_1.
    unfold sphere_b. cbn. on_reals. ring. }
  rewrite D, N. by_comparisons.
  f_equal. f_equal. coefficients. on_reals. f_equal; ring.
Qed.

(** ** The sign of the radius *)



(** ** The queries run on binary64 *)

Example sphere_hit_binary64 :
  getRayIntersection (AsSphere (Sphere.new (pt 0 0 0) 1%float))
    (pt (-5) 0 0) (pt 1 0 0) 10%float mem0
  = (true, mkMem (pt (-1) 0 0) 4%float []).
Proof. vm_compute. reflexivity. Qed.

Example sphere_hit_at_range_zero_binary64 :
  getRayIntersection (AsSphere (Sphere.new (pt 0 0 0) 1%float))
    (pt (-1) 0 0) (pt 1 0 0) 0%float mem0
  = (true, mkMem (pt (-1) 0 0) 0%float []).
Proof. vm_compute. reflexivity. Qed.

Example plane_hit_binary64 :
  getRayIntersection (AsPlane (Plane.new (pt 0 0 0) (pt 0 0 1)))
    (pt 0 0 5) (pt 0 0 (-1)) 10%float mem0
  = (true, mkMem (pt 0 0 0) 5%float (plane_trace 5%float)).
Proof. vm_compute. reflexivity. Qed.

Example plane_distance_binary64 :
  getDistanceToPoint (AsPlane (Plane.new (pt 0 0 0) (pt 0 0 2))) (pt 0 0 1)
  = 2%float.
Proof. vm_compute. reflexivity. Qed.

Example cube_distance_binary64 :
  getDistanceToPoint (AsCube (Cube.new (pt 0 0 0) (pt 1 1 1))) (pt 3 0 0)
  = 2%float
  /\ getDistanceToPoint (AsCube (Cube.new (pt 0 0 0) (pt 1 1 1))) (pt 0 0 0)
     = (-1)%float.
Proof. split; vm_compute; reflexivity. Qed.

Example cube_ray_binary64 :
  getRayIntersection (AsCube (Cube.new (pt 0 0 0) (pt 1 1 1)))
    (pt (-5) 0 0) (pt 1 0 0) 10%float mem0
  = (false, mem0).
Proof. vm_compute. reflexivity. Qed.

Example sphere_distance_binary64 :
  getDistanceToPoint (AsSphere (Sphere.new (pt 1 2 3) 2%float)) (pt 1 2 3)
  = (-2)%float.
Proof. vm_compute. reflexivity. Qed.

(** * Further properties of the queries *)

Unset Implicit Arguments.

(** ** Sphere: when a ray is answered with a hit *)

Section SphereHit.

Local Open Scope R_scope.

Variables (s : Sphere.t R) (o dir : Point R).

(** With a real smaller root, that root is non-negative exactly when the
    direction does not point away from the centre and the origin is not
    strictly inside. *)
Lemma near_root_nonneg_iff :
  0 <= sphere_discriminant s o dir ->
  (0 <= sphere_near_root s o dir
   <-> sphere_b s o dir <= 0 /\ 0 <= sphere_c s o).
Proof.
  intros D.
  pose proof (sqrt_discriminant_sqr D) as Q.
  pose proof (sqrt_pos (sphere_discriminant s o dir)) as P.
  unfold sphere_near_root.
  assert (E : sphere_discriminant s o dir
              = sphere_b s o dir ^ 2 - sphere_c s o) by reflexivity.
  split.
  - intros N. split; nra.
  - intros [B C]. nra.
Qed.

End SphereHit.

(** X1. On the reals, a sphere answers a ray with a hit exactly when the
    line meets the sphere ([discriminant >= 0]), the direction does not point
    away from the centre ([b <= 0]), the origin is not strictly inside
    ([c >= 0]) and the smaller root is within the range.  In particular a ray
    that starts strictly inside the sphere is never answered with a hit: the
    exit point is not reported. *)
Theorem sphere_hit_iff
    (s : Sphere.t R) (o dir : Point R) (max_dist : R) (m : Mem R) :
  (fst (getRayIntersection (AsSphere s) o dir max_dist m) = true
   <-> 0 <= sphere_discriminant s o dir
       /\ sphere_b s o dir <= 0
       /\ 0 <= sphere_c s o
       /\ sphere_near_root s o dir <= max_dist)%R.
Proof.
  cbn [getRayIntersection]. rewrite Sphere_getRayIntersection_cases.
  split.
  - by_comparisons; cbn [fst]; intros Y; try discriminate.
    pose proof (proj1 (near_root_nonneg_iff s o dir E) E0). tauto.
  - intros (D & B & C & L).
    pose proof (proj2 (near_root_nonneg_iff s o dir D) (conj B C)).
    by_comparisons. reflexivity.
Qed.

(** ** The stored distance and the stored point *)

Lemma norm_of_scaled_unit (d : R) (dir : Point R) :
  (0 <= d)%R -> squaredNorm dir = 1%R -> norm (d *: dir)%pt = d.
Proof.
  intros P U. unfold norm. on_reals. apply sqrt_of_sqr; [assumption |].
  destruct dir as [d1 d2 d3]. coefficients. on_reals.
  replace (d * d1 * (d * d1) + d * d2 * (d * d2) + d * d3 * (d * d3))%R
    with (d * d * (d1 * d1 + d2 * d2 + d3 * d3))%R by ring.
  rewrite U. ring.
Qed.

Lemma add_then_sub (u v : Point R) : (u + v - u)%pt = v.
Proof.
  destruct u, v. coefficients. on_reals. f_equal; ring.
Qed.

(** X2. On the reals, for every object and every ray with a unit
    direction: after a hit, the stored distance is the Euclidean distance
    between the ray origin and the stored point. *)
Theorem hit_distance_is_euclidean
    (obj : AnyObject R) (o dir : Point R) (max_dist : R) (m : Mem R) :
  squaredNorm dir = 1%R ->
  fst (getRayIntersection obj o dir max_dist m) = true ->
  let m' := snd (getRayIntersection obj o dir max_dist m) in
  norm (intersect_point m' - o)%pt = intersect_dist m'.
Proof.
  intros U Y m'. apply hit_writes_tested_distance in Y. cbv zeta in Y.
  fold m' in Y. destruct Y as (A & _ & E).
  apply Rltb_false in A. change (@fzero R R_Scalar) with 0%R in A.
  rewrite E, add_then_sub. now apply norm_of_scaled_unit.
Qed.

Lemma unit_sphere_axis_ray (max_dist : R) (m : Mem R) :
  (4 <= max_dist ->
   getRayIntersection (AsSphere (Sphere.new (mkPoint 0 0 0) 1))
     (mkPoint (-5) 0 0) (mkPoint 1 0 0) max_dist m
   = (true, mkMem (mkPoint (-1) 0 0) 4 (cout m)))%R.
Proof.
  intros L. cbn [getRayIntersection]. rewrite Sphere_getRayIntersection_cases.
  set (s := Sphere.new (mkPoint 0 0 0)%R 1%R).
  assert (D : (sphere_discriminant s (mkPoint (-5) 0 0) (mkPoint 1 0 0) = 1)%R).
  { unfold sphere_discriminant, sphere_c, sphere_b. cbn. on_reals. ring. }
  assert (N : (sphere_near_root s (mkPoint (-5) 0 0) (mkPoint 1 0 0) = 4)%R).
  { unfold sphere_near_root. rewrite D, sqrt_1.
    unfold sphere_b. cbn. on_reals. ring. }
  rewrite D, N. by_comparisons.
  f_equal. f_equal. coefficients. on_reals. f_equal; ring.
Qed.

(** The unit sphere at the origin, hit from [(-5,0,0)]. *)
Lemma hit_distance_is_euclidean_witness :
  let obj := AsSphere (Sphere.new (mkPoint 0 0 0) 1)%R in
  let o := mkPoint (-5)%R 0%R 0%R in
  let dir := mkPoint 1%R 0%R 0%R in
  let m := mkMem (mkPoint 7 7 7)%R 7%R [] in
  let m' := snd (getRayIntersection obj o dir 10%R m) in
  (squaredNorm dir = 1%R
   /\ fst (getRayIntersection obj o dir 10%R m) = true)
  /\ norm (intersect_point m' - o)%pt = intersect_dist m'.
Proof.
  intros obj o dir m m'.
  assert (U : squaredNorm dir = 1%R) by (cbn; on_reals; ring).
  assert (Y : fst (getRayIntersection obj o dir 10%R m) = true).
  { unfold obj, o, dir. rewrite unit_sphere_axis_ray by lra. reflexivity. }
  split; [split; [exact U | exact Y] |].
  exact (@hit_distance_is_euclidean obj o dir 10%R m U Y).
Defined.

Lemma Sphere_hit_state
    (s : Sphere.t R) (o dir : Point R) (max_dist : R) (m : Mem R) :
  fst (getRayIntersection (AsSphere s) o dir max_dist m) = true ->
  (0 <= sphere_discriminant s o dir)%R
  /\ snd (getRayIntersection (AsSphere s) o dir max_dist m)
     = mkMem (o + sphere_near_root s o dir *: dir)%pt
             (sphere_near_root s o dir) (cout m).
Proof.
  cbn [getRayIntersection]. rewrite Sphere_getRayIntersection_cases.
  by_comparisons; cbn [fst snd]; intros Y; try discriminate.
  split; [assumption | reflexivity].
Qed.

(** X3. On the reals, for every sphere of non-negative radius and every
    ray with a unit direction: the distance query, asked at the point a hit
    stored, returns [0]. *)
Theorem sphere_hit_point_has_distance_zero
    (s : Sphere.t R) (o dir : Point R) (max_dist : R) (m : Mem R) :
  (0 <= Sphere.radius_ s)%R ->
  squaredNorm dir = 1%R ->
  fst (getRayIntersection (AsSphere s) o dir max_dist m) = true ->
  getDistanceToPoint (AsSphere s)
    (intersect_point (snd (getRayIntersection (AsSphere s) o dir max_dist m)))
  = 0%R.
Proof.
  intros P U Y. destruct (Sphere_hit_state _ _ _ _ _ Y) as [D E].
  rewrite E. cbn [intersect_point getDistanceToPoint].
  unfold Sphere.getDistanceToPoint. rewrite norm_sub_sym. unfold norm.
  rewrite (near_root_on_sphere U D). on_reals.
  rewrite sqrt_pow2 by assumption. ring.
Qed.

(** The unit sphere at the origin, hit from [(-5,0,0)] at [(-1,0,0)]. *)
Lemma sphere_hit_point_witness :
  let s := Sphere.new (mkPoint 0 0 0)%R 1%R in
  let o := mkPoint (-5)%R 0%R 0%R in
  let dir := mkPoint 1%R 0%R 0%R in
  let m := mkMem (mkPoint 7 7 7)%R 7%R [] in
  ((0 <= Sphere.radius_ s)%R
   /\ squaredNorm dir = 1%R
   /\ fst (getRayIntersection (AsSphere s) o dir 10%R m) = true)
  /\ getDistanceToPoint (AsSphere s)
       (intersect_point (snd (getRayIntersection (AsSphere s) o dir 10%R m)))
     = 0%R.
Proof.
  intros s o dir m.
  assert (P : (0 <= Sphere.radius_ s)%R) by (cbn; lra).
  assert (U : squaredNorm dir = 1%R) by (cbn; on_reals; ring).
  assert (Y : fst (getRayIntersection (AsSphere s) o dir 10%R m) = true).
  { unfold s, o, dir. rewrite unit_sphere_axis_ray by lra. reflexivity. }
  split; [split; [exact P | split; [exact U | exact Y]] |].
  exact (@sphere_hit_point_has_distance_zero s o dir 10%R m P U Y).
Defined.

(** ** The range *)

(** X4. On the reals, for every object and every ray: a hit found within
    a range is found, with the same stored point and distance and the same
    final state, within every larger range. *)
Theorem larger_range_keeps_hit
    (obj : AnyObject R) (o dir : Point R) (max_dist max_dist' : R)
    (m : Mem R) :
  (max_dist <= max_dist')%R ->
  fst (getRayIntersection obj o dir max_dist m) = true ->
  getRayIntersection obj o dir max_dist' m
  = getRayIntersection obj o dir max_dist m.
Proof.
  intros L. destruct obj as [b0 | s | c | p]; cbn [getRayIntersection].
  - discriminate.
  - rewrite !Sphere_getRayIntersection_cases.
    by_comparisons; cbn [fst]; intros Y; try discriminate; reflexivity.
  - discriminate.
  - rewrite !Plane_getRayIntersection_cases. cbv zeta.
    by_comparisons; cbn [fst]; intros Y; try discriminate; reflexivity.
Qed.

(** The hit at distance [4], within range [4] and within range [10]. *)
Lemma larger_range_witness :
  let obj := AsSphere (Sphere.new (mkPoint 0 0 0) 1)%R in
  let o := mkPoint (-5)%R 0%R 0%R in
  let dir := mkPoint 1%R 0%R 0%R in
  let m := mkMem (mkPoint 7 7 7)%R 7%R [] in
  ((4 <= 10)%R /\ fst (getRayIntersection obj o dir 4%R m) = true)
  /\ getRayIntersection obj o dir 10%R m = getRayIntersection obj o dir 4%R m.
Proof.
  intros obj o dir m.
  assert (L : (4 <= 10)%R) by lra.
  assert (Y : fst (getRayIntersection obj o dir 4%R m) = true).
  { unfold obj, o, dir. rewrite unit_sphere_axis_ray by lra. reflexivity. }
  split; [split; [exact L | exact Y] |].
  exact (@larger_range_keeps_hit obj o dir 4%R 10%R m L Y).
Defined.

(** ** Plane: where a hit lies *)

Lemma Plane_hit_state
    (pl : Plane.t R) (o dir : Point R) (max_dist : R) (m : Mem R) :
  fst (getRayIntersection (AsPlane pl) o dir max_dist m) = true ->
  (1 / 1000000 <= Rabs (plane_denominator pl dir))%R
  /\ intersect_point (snd (getRayIntersection (AsPlane pl) o dir max_dist m))
     = (o + plane_d pl o dir *: dir)%pt.
Proof.
  cbn [getRayIntersection]. rewrite Plane_getRayIntersection_cases. cbv zeta.
  by_comparisons; cbn [fst snd]; intros Y; try discriminate.
  split; [assumption | reflexivity].
Qed.

Lemma plane_point_at_d (pl : Plane.t R) (o dir : Point R) :
  plane_denominator pl dir <> 0%R ->
  dot (o + plane_d pl o dir *: dir - Plane.center_ pl)%pt (Plane.normal_ pl)
  = 0%R.
Proof.
  unfold plane_d, plane_denominator.
  destruct o as [o1 o2 o3], dir as [d1 d2 d3],
    (Plane.center_ pl) as [c1 c2 c3], (Plane.normal_ pl) as [n1 n2 n3].
  coefficients. on_reals. intros N.
  set (den := (d1 * n1 + d2 * n2 + d3 * n3)%R) in *.
  set (num := ((c1 - o1) * n1 + (c2 - o2) * n2 + (c3 - o3) * n3)%R).
  replace ((o1 + num / den * d1 - c1) * n1 + (o2 + num / den * d2 - c2) * n2
           + (o3 + num / den * d3 - c3) * n3)%R
    with (num / den * den - num)%R by (unfold num, den; ring).
  field. exact N.
Qed.

(** X5. On the reals, for every plane, whatever the length of its normal:
    the point stored by a hit satisfies the plane equation
    [(point - center) . normal = 0]; for a unit normal the distance query
    returns [0] there. *)
Theorem plane_hit_point_on_plane
    (pl : Plane.t R) (o dir : Point R) (max_dist : R) (m : Mem R) :
  fst (getRayIntersection (AsPlane pl) o dir max_dist m) = true ->
  let hit :=
    intersect_point (snd (getRayIntersection (AsPlane pl) o dir max_dist m)) in
  dot (hit - Plane.center_ pl)%pt (Plane.normal_ pl) = 0%R
  /\ (norm (Plane.normal_ pl) = 1%R ->
      getDistanceToPoint (AsPlane pl) hit = 0%R).
Proof.
  intros Y hit. destruct (Plane_hit_state _ _ _ _ _ Y) as [D E].
  fold hit in E.
  assert (N : plane_denominator pl dir <> 0%R).
  { intros Z. rewrite Z, Rabs_R0 in D. lra. }
  assert (Q : dot (hit - Plane.center_ pl)%pt (Plane.normal_ pl) = 0%R).
  { rewrite E. now apply plane_point_at_d. }
  split; [exact Q |].
  intros U. cbn [getDistanceToPoint].
  rewrite Plane_getDistanceToPoint_formula, U. unfold plane_offset.
  revert Q. destruct hit as [h1 h2 h3],
    (Plane.center_ pl) as [c1 c2 c3], (Plane.normal_ pl) as [n1 n2 n3].
  coefficients. on_reals. intros Q. lra.
Qed.

Lemma plane_z0_downward_ray (m : Mem R) :
  (getRayIntersection
     (AsPlane (Plane.new (mkPoint 0 0 0) (mkPoint 0 0 1)))
     (mkPoint 0 0 5) (mkPoint 0 0 (-1)) 10 m
   = (true, mkMem (mkPoint 0 0 0) 5 (cout m ++ plane_trace 5)))%R.
Proof.
  cbn [getRayIntersection].
  rewrite Plane_getRayIntersection_cases. cbv zeta.
  set (pl := Plane.new (mkPoint 0 0 0)%R (mkPoint 0 0 1)%R).
  assert (D : (plane_denominator pl (mkPoint 0 0 (-1)) = -1)%R).
  { unfold plane_denominator. cbn. on_reals. ring. }
  assert (E : (plane_d pl (mkPoint 0 0 5) (mkPoint 0 0 (-1)) = 5)%R).
  { unfold plane_d. rewrite D. cbn. on_reals. field. }
  rewrite D, E.
  replace (Rabs (-1)) with 1%R by (rewrite Rabs_left; lra).
  by_comparisons. f_equal. f_equal. coefficients. on_reals. f_equal; ring.
Qed.

(** The plane [z = 0], hit from [(0,0,5)] straight down. *)
Lemma plane_hit_point_witness :
  let pl := Plane.new (mkPoint 0 0 0)%R (mkPoint 0 0 1)%R in
  let o := mkPoint 0%R 0%R 5%R in
  let dir := mkPoint 0%R 0%R (-1)%R in
  let m := mkMem (mkPoint 7 7 7)%R 7%R [] in
  let hit :=
    intersect_point (snd (getRayIntersection (AsPlane pl) o dir 10%R m)) in
  fst (getRayIntersection (AsPlane pl) o dir 10%R m) = true
  /\ dot (hit - Plane.center_ pl)%pt (Plane.normal_ pl) = 0%R.
Proof.
  intros pl o dir m hit.
  assert (Y : fst (getRayIntersection (AsPlane pl) o dir 10%R m) = true).
  { unfold pl, o, dir. rewrite plane_z0_downward_ray. reflexivity. }
  split; [exact Y |].
  exact (proj1 (@plane_hit_point_on_plane pl o dir 10%R m Y)).
Defined.

(** X6. On the reals, for every plane: a ray that starts on the plane and
    is not rejected as parallel is answered, within any non-negative range,
    with a hit at distance [0] whose point is the ray origin. *)
Theorem plane_ray_from_the_plane
    (pl : Plane.t R) (o dir : Point R) (max_dist : R) (m : Mem R) :
  dot (o - Plane.center_ pl)%pt (Plane.normal_ pl) = 0%R ->
  (1 / 1000000 <= Rabs (plane_denominator pl dir))%R ->
  (0 <= max_dist)%R ->
  fst (getRayIntersection (AsPlane pl) o dir max_dist m) = true
  /\ outputs (snd (getRayIntersection (AsPlane pl) o dir max_dist m))
     = (o, 0%R).
Proof.
  intros Z D L.
  assert (E : plane_d pl o dir = 0%R).
  { unfold plane_d.
    replace (dot (Plane.center_ pl - o)%pt (Plane.normal_ pl)) with 0%R.
    - unfold Rdiv. ring.
    - revert Z. destruct o as [o1 o2 o3],
        (Plane.center_ pl) as [c1 c2 c3], (Plane.normal_ pl) as [n1 n2 n3].
      coefficients. on_reals. intros Z. lra. }
  cbn [getRayIntersection]. rewrite Plane_getRayIntersection_cases. cbv zeta.
  rewrite E. by_comparisons. cbn [fst snd]. split; [reflexivity |].
  unfold outputs. cbn [intersect_point intersect_dist]. f_equal.
  destruct o as [o1 o2 o3], dir as [d1 d2 d3]. coefficients. on_reals.
  f_equal; ring.
Qed.

(** From the origin, a point of the plane [z = 0], straight up. *)
Lemma plane_ray_from_the_plane_witness :
  let pl := Plane.new (mkPoint 0 0 0)%R (mkPoint 0 0 1)%R in
  let o := mkPoint 0%R 0%R 0%R in
  let dir := mkPoint 0%R 0%R 1%R in
  let m := mkMem (mkPoint 7 7 7)%R 7%R [] in
  (dot (o - Plane.center_ pl)%pt (Plane.normal_ pl) = 0%R
   /\ (1 / 1000000 <= Rabs (plane_denominator pl dir))%R
   /\ (0 <= 0)%R)
  /\ fst (getRayIntersection (AsPlane pl) o dir 0%R m) = true
  /\ outputs (snd (getRayIntersection (AsPlane pl) o dir 0%R m)) = (o, 0%R).
Proof.
  intros pl o dir m.
  assert (Z : dot (o - Plane.center_ pl)%pt (Plane.normal_ pl) = 0%R)
    by (cbn; on_reals; ring).
  assert (D : (1 / 1000000 <= Rabs (plane_denominator pl dir))%R).
  { replace (plane_denominator pl dir) with 1%R
      by (unfold plane_denominator; cbn; on_reals; ring).
    rewrite Rabs_R1. lra. }
  assert (L : (0 <= 0)%R) by lra.
  split; [split; [exact Z | split; [exact D | exact L]] |].
  exact (@plane_ray_from_the_plane pl o dir 0%R m Z D L).
Defined.

(** ** Plane: the orientation of the normal *)

(** The opposite vector. *)
Lemma norm_opposite (n : Point R) :
  norm (mkPoint (- x n) (- y n) (- z n))%R = norm n.
Proof.
  unfold norm. f_equal. destruct n as [n1 n2 n3]. coefficients. on_reals.
  ring.
Qed.

(** X7. On the reals, turning the normal of a plane into its opposite
    negates the distance query at every point and leaves the ray query as it
    was: same return value, same stored point and distance, same text on
    [std::cout]. *)
Theorem plane_opposite_normal
    (base : Object.t R) (n : Point R) (p o dir : Point R) (max_dist : R)
    (m : Mem R) :
  let pl := Plane.mk base n in
  let pl' := Plane.mk base (mkPoint (- x n) (- y n) (- z n))%R in
  getDistanceToPoint (AsPlane pl') p = (- getDistanceToPoint (AsPlane pl) p)%R
  /\ getRayIntersection (AsPlane pl') o dir max_dist m
     = getRayIntersection (AsPlane pl) o dir max_dist m.
Proof.
  intros pl pl'. split.
  - cbn [getDistanceToPoint]. rewrite !Plane_getDistanceToPoint_formula.
    unfold plane_offset, pl', pl. cbn [Plane.normal_ Plane.center_ Plane.base].
    rewrite norm_opposite. unfold Plane.center_. cbn [Plane.base].
    destruct n as [n1 n2 n3], p as [p1 p2 p3],
      (Object.center_ base) as [c1 c2 c3].
    unfold dot. cbn [x y z]. on_reals. unfold Rdiv. ring.
  - assert (D : plane_denominator pl' dir = (- plane_denominator pl dir)%R).
    { unfold plane_denominator, pl', pl. cbn [Plane.normal_].
      destruct n as [n1 n2 n3], dir as [d1 d2 d3].
      coefficients. on_reals. ring. }
    cbn [getRayIntersection]. rewrite !Plane_getRayIntersection_cases.
    cbv zeta. rewrite D, Rabs_Ropp.
    destruct (Rltb (Rabs (plane_denominator pl dir)) (1 / 1000000)) eqn:T;
      [reflexivity |].
    apply Rltb_false in T.
    assert (N : plane_denominator pl dir <> 0%R).
    { intros Z. rewrite Z, Rabs_R0 in T. lra. }
    assert (E : plane_d pl' o dir = plane_d pl o dir).
    { unfold plane_d. rewrite D. revert N.
      unfold plane_denominator, pl', pl.
      cbn [Plane.normal_ Plane.center_ Plane.base]. unfold Plane.center_.
      cbn [Plane.base].
      destruct n as [n1 n2 n3], dir as [d1 d2 d3], o as [o1 o2 o3],
        (Object.center_ base) as [c1 c2 c3].
      coefficients. on_reals. intros N. field. exact N. }
    now rewrite E.
Qed.

(** ** Plane: distance along the normal *)

Lemma norm_one_squaredNorm (n : Point R) :
  norm n = 1%R -> squaredNorm n = 1%R.
Proof.
  unfold norm. on_reals. intros U.
  rewrite <- (sqrt_sqrt (squaredNorm n)) by apply squaredNorm_nonneg.
  rewrite U. ring.
Qed.

(** X8. On the reals, for every plane with a unit normal: moving the
    query point by [t] along the normal adds [t] to the distance, and the
    distance at the centre is [0]; so the distance at
    [center + t * normal] is [t]. *)
Theorem plane_distance_along_unit_normal
    (pl : Plane.t R) (p : Point R) (t : R) :
  norm (Plane.normal_ pl) = 1%R ->
  getDistanceToPoint (AsPlane pl) (p + t *: Plane.normal_ pl)%pt
  = (getDistanceToPoint (AsPlane pl) p + t)%R
  /\ getDistanceToPoint (AsPlane pl) (Plane.center_ pl) = 0%R
  /\ getDistanceToPoint (AsPlane pl)
       (Plane.center_ pl + t *: Plane.normal_ pl)%pt = t.
Proof.
  intros U. pose proof (norm_one_squaredNorm _ U) as S.
  cbn [getDistanceToPoint]. rewrite !Plane_getDistanceToPoint_formula, U.
  unfold plane_offset. revert S.
  destruct p as [p1 p2 p3], (Plane.center_ pl) as [c1 c2 c3],
    (Plane.normal_ pl) as [n1 n2 n3].
  coefficients. on_reals. intros S.
  assert (T : (t * (n1 * n1 + n2 * n2 + n3 * n3) = t)%R)
    by (rewrite S; ring).
  repeat split; lra.
Qed.

(** The plane through [(1,2,3)] with normal [(0,0,1)]. *)
Lemma plane_distance_along_normal_witness :
  let pl := Plane.new (mkPoint 1 2 3)%R (mkPoint 0 0 1)%R in
  norm (Plane.normal_ pl) = 1%R
  /\ getDistanceToPoint (AsPlane pl)
       (Plane.center_ pl + 4%R *: Plane.normal_ pl)%pt = 4%R.
Proof.
  intros pl.
  assert (U : norm (Plane.normal_ pl) = 1%R) by (apply norm_axis_z; lra).
  split; [exact U |].
  exact (proj2 (proj2 (@plane_distance_along_unit_normal pl
                         (mkPoint 0 0 0)%R 4%R U))).
Defined.

(** ** Cube: the sign and the size of the distance *)

Section CubeTerms.

Local Open Scope R_scope.

(** Both per-axis terms depend on the coordinate through [|p - c|]. *)
Lemma clamped_term_abs (c h p : R) :
  clamped_term c h p = Rmax (Rabs (p - c) - h) 0.
Proof.
  unfold clamped_term, Rmax, Rabs.
  repeat destruct (Rle_dec _ _); destruct (Rcase_abs _); lra.
Qed.

Lemma unclamped_term_abs (c h p : R) :
  unclamped_term c h p = Rabs (p - c) - h.
Proof.
  unfold unclamped_term, Rmax, Rabs.
  destruct (Rle_dec _ _); destruct (Rcase_abs _); lra.
Qed.

Lemma clamped_term_nonneg (c h p : R) : 0 <= clamped_term c h p.
Proof. rewrite clamped_term_abs. apply Rmax_r. Qed.

Lemma clamped_term_in_slab (c h p : R) :
  c - h <= p <= c + h -> clamped_term c h p = 0.
Proof.
  intros I. unfold clamped_term, Rmax. repeat destruct (Rle_dec _ _); lra.
Qed.

Lemma clamped_term_ge_unclamped (c h p : R) :
  unclamped_term c h p <= clamped_term c h p.
Proof.
  rewrite clamped_term_abs, unclamped_term_abs. apply Rmax_l.
Qed.

Lemma sqrt_sum_sqr_ge (u v w : R) :
  0 <= u -> u <= sqrt (u ^ 2 + v ^ 2 + w ^ 2).
Proof.
  intros P. rewrite <- (sqrt_pow2 u) at 1 by assumption.
  apply sqrt_le_1_alt. nra.
Qed.

Variables (cb : Cube.t R) (p : Point R).

Lemma cube_clamped_norm_nonneg : 0 <= cube_clamped_norm cb p.
Proof. unfold cube_clamped_norm. cbv zeta. apply sqrt_pos. Qed.

Lemma cube_clamped_norm_in_box :
  in_closed_box cb p -> cube_clamped_norm cb p = 0.
Proof.
  unfold in_closed_box, cube_clamped_norm. cbv zeta. intros (X & Y & Z).
  rewrite !clamped_term_in_slab by assumption.
  apply sqrt_of_sqr; [lra | ring].
Qed.

(** The largest unclamped term is at most the norm of the clamped ones. *)
Lemma cube_fallback_le_clamped_norm :
  cube_fallback cb p <= cube_clamped_norm cb p.
Proof.
  unfold cube_fallback, cube_clamped_norm. cbv zeta.
  set (c := Cube.center_ cb). set (h := Cube.size_ cb).
  pose proof (clamped_term_ge_unclamped (x c) (x h) (x p)) as X.
  pose proof (clamped_term_ge_unclamped (y c) (y h) (y p)) as Y.
  pose proof (clamped_term_ge_unclamped (z c) (z h) (z p)) as Z.
  pose proof (clamped_term_nonneg (x c) (x h) (x p)) as PX.
  pose proof (clamped_term_nonneg (y c) (y h) (y p)) as PY.
  pose proof (clamped_term_nonneg (z c) (z h) (z p)) as PZ.
  set (tx := clamped_term (x c) (x h) (x p)) in *.
  set (ty := clamped_term (y c) (y h) (y p)) in *.
  set (tz := clamped_term (z c) (z h) (z p)) in *.
  pose proof (@sqrt_sum_sqr_ge tx ty tz PX) as SX.
  pose proof (@sqrt_sum_sqr_ge ty tz tx PY) as SY.
  pose proof (@sqrt_sum_sqr_ge tz tx ty PZ) as SZ.
  replace (ty ^ 2 + tz ^ 2 + tx ^ 2) with (tx ^ 2 + ty ^ 2 + tz ^ 2) in SY
    by ring.
  replace (tz ^ 2 + tx ^ 2 + ty ^ 2) with (tx ^ 2 + ty ^ 2 + tz ^ 2) in SZ
    by ring.
  apply Rmax_lub; [apply Rmax_lub |]; lra.
Qed.

End CubeTerms.

(** X9. On the reals, for every cuboid and every point, across both
    branches of the query: the distance is non-positive exactly for the
    points inside the box or on its surface, and it never exceeds the norm of
    the clamped per-axis terms. *)
Theorem cube_distance_sign (cb : Cube.t R) (p : Point R) :
  ((getDistanceToPoint (AsCube cb) p <= 0 <-> in_closed_box cb p)
   /\ getDistanceToPoint (AsCube cb) p <= cube_clamped_norm cb p)%R.
Proof.
  cbn [getDistanceToPoint]. rewrite Cube_getDistanceToPoint_cases.
  pose proof (cube_fallback_nonpos cb p) as F.
  pose proof (cube_fallback_le_clamped_norm cb p) as L.
  pose proof (cube_clamped_norm_in_box cb p) as I.
  split; [split |].
  - by_comparisons; intros N; apply F; lra.
  - intros B. rewrite (I B). by_comparisons. apply F. exact B.
  - by_comparisons.
Qed.

(** X10. On the reals, for every point inside a cuboid or on its surface,
    the query returns minus the gap to the nearest face: minus the smallest of
    [h - |p - c|] over the three axes. *)
Theorem cube_interior_distance (cb : Cube.t R) (p : Point R) :
  in_closed_box cb p ->
  let c := Cube.center_ cb in
  let h := Cube.size_ cb in
  (getDistanceToPoint (AsCube cb) p
   = - Rmin (Rmin (x h - Rabs (x p - x c)) (y h - Rabs (y p - y c)))
            (z h - Rabs (z p - z c)))%R.
Proof.
  intros B c h. cbn [getDistanceToPoint].
  rewrite Cube_getDistanceToPoint_cases, (cube_clamped_norm_in_box cb p B).
  by_comparisons. unfold cube_fallback. cbv zeta. fold c h.
  rewrite !unclamped_term_abs.
  unfold Rmax, Rmin. repeat destruct (Rle_dec _ _); lra.
Qed.

(** The centre of the cuboid with half-extents [(1,2,3)]: the nearest
    face is at [1]. *)
Lemma cube_interior_distance_witness :
  let cb := Cube.new (mkPoint 0 0 0)%R (mkPoint 1 2 3)%R in
  let p := mkPoint 0%R 0%R 0%R in
  in_closed_box cb p /\ getDistanceToPoint (AsCube cb) p = (- 1)%R.
Proof.
  intros cb p.
  assert (B : in_closed_box cb p) by (unfold in_closed_box; cbn; lra).
  split; [exact B |].
  rewrite (@cube_interior_distance cb p B). cbn.
  replace (0 - 0)%R with 0%R by ring. rewrite Rabs_R0.
  unfold Rmin. repeat destruct (Rle_dec _ _); lra.
Defined.

(** X11. On the reals, for every cuboid: a point whose [y] and [z]
    coordinates are within the box and whose [x] coordinate is out of it by
    [g >= 1e-6] is at distance [g]. *)
Theorem cube_face_distance (cb : Cube.t R) (p : Point R) :
  let c := Cube.center_ cb in
  let h := Cube.size_ cb in
  let g := (Rabs (x p - x c) - x h)%R in
  (1 / 1000000 <= g)%R ->
  (y c - y h <= y p <= y c + y h)%R ->
  (z c - z h <= z p <= z c + z h)%R ->
  getDistanceToPoint (AsCube cb) p = g.
Proof.
  intros c h g G Y Z. cbn [getDistanceToPoint].
  rewrite Cube_getDistanceToPoint_cases.
  assert (N : cube_clamped_norm cb p = g).
  { unfold cube_clamped_norm. cbv zeta. fold c h.
    rewrite (clamped_term_in_slab _ _ _ Y), (clamped_term_in_slab _ _ _ Z).
    rewrite clamped_term_abs. fold g.
    rewrite Rmax_left by lra. apply sqrt_of_sqr; [lra | ring]. }
  rewrite N. by_comparisons.
Qed.

(** The unit cube seen from [(-3,0,0)]. *)
Lemma cube_face_distance_witness :
  let cb := Cube.new (mkPoint 0 0 0)%R (mkPoint 1 1 1)%R in
  let p := mkPoint (-3)%R 0%R 0%R in
  getDistanceToPoint (AsCube cb) p = 2%R.
Proof.
  intros cb p.
  assert (A : (Rabs (x p - x (Cube.center_ cb)) = 3)%R).
  { cbn. rewrite Rabs_left; lra. }
  assert (G : (1 / 1000000
               <= Rabs (x p - x (Cube.center_ cb)) - x (Cube.size_ cb))%R).
  { rewrite A. cbn. lra. }
  rewrite (@cube_face_distance cb p G); [rewrite A; cbn; lra | |]; cbn; lra.
Defined.

Section CubeNearestPoint.

Local Open Scope R_scope.

Lemma sqr_le_of_bounds (t w : R) :
  0 <= t -> t <= w \/ t <= - w -> t ^ 2 <= w * w.
Proof.
  intros P [L | L].
  - pose proof (Rmult_le_pos (w - t) (w + t)). nra.
  - pose proof (Rmult_le_pos (- w - t) (- w + t)). nra.
Qed.

(** No coordinate of the slab is nearer to [u] than the clamped term. *)
Lemma clamped_term_le_gap (c h u v : R) :
  c - h <= v <= c + h -> clamped_term c h u ^ 2 <= (u - v) * (u - v).
Proof.
  intros I. apply sqr_le_of_bounds; [apply clamped_term_nonneg |].
  unfold clamped_term, Rmax. repeat destruct (Rle_dec _ _); lra.
Qed.

(** For a non-empty slab, [u] clamped to it is at the clamped term. *)
Lemma clamped_term_attained (c h u : R) :
  0 <= h ->
  let v := Rmax (c - h) (Rmin u (c + h)) in
  c - h <= v <= c + h /\ (u - v) * (u - v) = clamped_term c h u ^ 2.
Proof.
  intros P v. unfold v, clamped_term, Rmax, Rmin.
  repeat destruct (Rle_dec _ _); split; try lra; ring_simplify; try lra;
    try (replace u with (c + h) by lra; ring);
    try (replace u with (c - h) by lra; ring).
Qed.

Lemma Cube_distance_le_clamped_norm (cb : Cube.t R) (p : Point R) :
  Cube.getDistanceToPoint cb p <= cube_clamped_norm cb p.
Proof.
  rewrite Cube_getDistanceToPoint_cases.
  pose proof (cube_fallback_le_clamped_norm cb p) as L.
  by_comparisons.
Qed.

End CubeNearestPoint.

(** X12. On the reals, for every cuboid and every point: the query never
    returns more than the Euclidean distance from the point to any point of
    the box; and when the half-extents are non-negative and the query returns
    at least [1e-6], some point of the box is at exactly the returned
    distance: the value is the distance to the box. *)
Theorem cube_distance_to_nearest_point (cb : Cube.t R) (p : Point R) :
  (forall q : Point R,
     in_closed_box cb q ->
     (getDistanceToPoint (AsCube cb) p <= norm (p - q)%pt)%R)
  /\ ((0 <= x (Cube.size_ cb))%R -> (0 <= y (Cube.size_ cb))%R ->
      (0 <= z (Cube.size_ cb))%R ->
      (1 / 1000000 <= getDistanceToPoint (AsCube cb) p)%R ->
      exists q : Point R,
        in_closed_box cb q
        /\ norm (p - q)%pt = getDistanceToPoint (AsCube cb) p).
Proof.
  pose proof clamped_term_le_gap as A.
  pose proof clamped_term_attained as B.
  pose proof (Cube_distance_le_clamped_norm cb p) as U.
  split.
  - intros q (QX & QY & QZ).
    apply Rle_trans with (1 := U).
    unfold cube_clamped_norm, norm. cbv zeta. on_reals.
    apply sqrt_le_1_alt. unfold squaredNorm, Point_sub. cbn [x y z]. on_reals.
    pose proof (A _ _ (x p) _ QX). pose proof (A _ _ (y p) _ QY).
    pose proof (A _ _ (z p) _ QZ). lra.
  - intros HX HY HZ G.
    set (c := Cube.center_ cb) in *. set (h := Cube.size_ cb) in *.
    destruct (B (x c) (x h) (x p) HX) as [IX EX].
    destruct (B (y c) (y h) (y p) HY) as [IY EY].
    destruct (B (z c) (z h) (z p) HZ) as [IZ EZ].
    exists (mkPoint (Rmax (x c - x h) (Rmin (x p) (x c + x h)))
                    (Rmax (y c - y h) (Rmin (y p) (y c + y h)))
                    (Rmax (z c - z h) (Rmin (z p) (z c + z h))))%R.
    split; [exact (conj IX (conj IY IZ)) |].
    revert G. cbn [getDistanceToPoint].
    rewrite Cube_getDistanceToPoint_cases.
    pose proof (cube_fallback_le_clamped_norm cb p) as L.
    by_comparisons. intros _.
    unfold cube_clamped_norm, norm. cbv zeta. fold c h. on_reals. f_equal.
    unfold squaredNorm, Point_sub. cbn [x y z]. on_reals.
    rewrite EX, EY, EZ. reflexivity.
Qed.

(** The unit cube seen from [(3,0,0)]: the nearest point is on the face
    [x = 1]. *)
Lemma cube_nearest_point_witness :
  let cb := Cube.new (mkPoint 0 0 0)%R (mkPoint 1 1 1)%R in
  let p := mkPoint 3%R 0%R 0%R in
  (1 / 1000000 <= getDistanceToPoint (AsCube cb) p)%R
  /\ exists q : Point R,
       in_closed_box cb q
       /\ norm (p - q)%pt = getDistanceToPoint (AsCube cb) p.
Proof.
  intros cb p.
  assert (G : (1 / 1000000 <= getDistanceToPoint (AsCube cb) p)%R).
  { cbn [getDistanceToPoint]. rewrite Cube_getDistanceToPoint_cases.
    unfold cb, p. rewrite unit_cube_clamped_norm_outside. by_comparisons. }
  split; [exact G |].
  apply (proj2 (cube_distance_to_nearest_point cb p));
    [cbn; lra | cbn; lra | cbn; lra | exact G].
Defined.

(** ** What reaches [std::cout] *)

(** X13. On any arithmetic, for every object, ray, range and state: the
    ray queries of [Object], [Sphere] and [Cube] leave [std::cout] as it
    was; the one of [Plane] leaves it as it was when the ray is rejected as
    parallel and otherwise appends the line with [d] exactly once, whether
    the call ends in a hit or not. *)
Theorem only_plane_writes_to_cout :
  forall (F : Type) (SF : Scalar F) (obj : AnyObject F)
         (o dir : Point F) (max_dist : F) (m : Mem F),
    let m' := snd (getRayIntersection obj o dir max_dist m) in
    match obj with
    | AsPlane pl =>
        let denominator := dot dir (Plane.normal_ pl) in
        cout m' =
          if (fabs denominator <? feps)%fp then cout m
          else (cout m
                ++ plane_trace
                     (dot (Plane.center_ pl - o)%pt (Plane.normal_ pl)
                      / denominator)%fp)%list
    | _ => cout m' = cout m
    end.
Proof.
  intros F SF obj o dir max_dist [ip id co] m'. unfold m'.
  destruct obj as [b0 | s | c | pl]; both_ways; try reflexivity;
    unfold plane_trace; now rewrite <- !app_assoc.
Qed.

(** ** Sphere: how fast the distance changes *)

Section Triangle.

Local Open Scope R_scope.

Lemma dot_sqr_le (u v : Point R) :
  dot u v * dot u v <= squaredNorm u * squaredNorm v.
Proof.
  destruct u as [u1 u2 u3], v as [v1 v2 v3]. coefficients. on_reals.
  pose proof (Rle_0_sqr (u1 * v2 - u2 * v1)).
  pose proof (Rle_0_sqr (u1 * v3 - u3 * v1)).
  pose proof (Rle_0_sqr (u2 * v3 - u3 * v2)).
  unfold Rsqr in *. nra.
Qed.

Lemma norm_is_sqrt (u : Point R) : norm u = sqrt (squaredNorm u).
Proof. reflexivity. Qed.

Lemma dot_le_norms (u v : Point R) : dot u v <= norm u * norm v.
Proof.
  rewrite !norm_is_sqrt.
  rewrite <- sqrt_mult by apply squaredNorm_nonneg.
  destruct (Rle_dec (dot u v) 0) as [N | N].
  - apply Rle_trans with (1 := N). apply sqrt_pos.
  - assert (P : 0 <= dot u v) by lra.
    rewrite <- (sqrt_square (dot u v) P) at 1.
    apply sqrt_le_1_alt, dot_sqr_le.
Qed.

Lemma squaredNorm_add (u v : Point R) :
  squaredNorm (u + v)%pt = squaredNorm u + 2 * dot u v + squaredNorm v.
Proof.
  destruct u, v. coefficients. on_reals. ring.
Qed.

Lemma norm_triangle (u v : Point R) : norm (u + v)%pt <= norm u + norm v.
Proof.
  pose proof (norm_nonneg u) as PU. pose proof (norm_nonneg v) as PV.
  pose proof (dot_le_norms u v) as D.
  assert (SU : norm u * norm u = squaredNorm u)
    by (apply sqrt_sqrt, squaredNorm_nonneg).
  assert (SV : norm v * norm v = squaredNorm v)
    by (apply sqrt_sqrt, squaredNorm_nonneg).
  rewrite <- (sqrt_square (norm u + norm v)) by lra.
  rewrite (norm_is_sqrt (u + v)). apply sqrt_le_1_alt.
  rewrite squaredNorm_add. nra.
Qed.

Lemma sub_via (c p q : Point R) : (c - p)%pt = ((c - q) + (q - p))%pt.
Proof.
  destruct c, p, q. coefficients. on_reals. f_equal; ring.
Qed.

Lemma norm_sub_le_via (c p q : Point R) :
  norm (c - p)%pt <= norm (c - q)%pt + norm (p - q)%pt.
Proof.
  rewrite (sub_via c p q), (norm_sub_sym p q). apply norm_triangle.
Qed.

End Triangle.

Lemma Sphere_getDistanceToPoint_formula (s : Sphere.t R) (p : Point R) :
  Sphere.getDistanceToPoint s p
  = (norm (Sphere.center_ s - p)%pt - Sphere.radius_ s)%R.
Proof. reflexivity. Qed.

(** X14. On the reals, for every sphere: the distance query changes by at
    most the Euclidean distance between two query points, and it is never
    below minus the radius. *)
Theorem sphere_distance_lipschitz (s : Sphere.t R) (p q : Point R) :
  (Rabs (getDistanceToPoint (AsSphere s) p - getDistanceToPoint (AsSphere s) q)
   <= norm (p - q)%pt
   /\ - Sphere.radius_ s <= getDistanceToPoint (AsSphere s) p)%R.
Proof.
  cbn [getDistanceToPoint]. rewrite !Sphere_getDistanceToPoint_formula.
  pose proof (norm_sub_le_via (Sphere.center_ s) p q) as A.
  pose proof (norm_sub_le_via (Sphere.center_ s) q p) as B.
  rewrite (norm_sub_sym q p) in B.
  pose proof (norm_nonneg (Sphere.center_ s - p)%pt) as P.
  split; [apply Rabs_le |]; lra.
Qed.

(** X15. On the reals, for every sphere: the absolute value of the
    distance query at a point is at most the Euclidean distance from that
    point to any point [q] of the surface ([|q - center| = radius]). *)
Theorem sphere_distance_below_surface_points
    (s : Sphere.t R) (p q : Point R) :
  norm (q - Sphere.center_ s)%pt = Sphere.radius_ s ->
  (Rabs (getDistanceToPoint (AsSphere s) p) <= norm (p - q)%pt)%R.
Proof.
  intros Q. cbn [getDistanceToPoint].
  rewrite Sphere_getDistanceToPoint_formula, <- Q, (norm_sub_sym q).
  pose proof (norm_sub_le_via (Sphere.center_ s) p q) as A.
  pose proof (norm_sub_le_via (Sphere.center_ s) q p) as B.
  rewrite (norm_sub_sym q p) in B.
  apply Rabs_le. lra.
Qed.

(** The point [(1,0,0)] of the unit sphere, seen from [(3,4,0)]. *)
Lemma sphere_surface_point_witness :
  let s := Sphere.new (mkPoint 0 0 0)%R 1%R in
  let p := mkPoint 3%R 4%R 0%R in
  let q := mkPoint 1%R 0%R 0%R in
  norm (q - Sphere.center_ s)%pt = Sphere.radius_ s
  /\ (Rabs (getDistanceToPoint (AsSphere s) p) <= norm (p - q)%pt)%R.
Proof.
  intros s p q.
  assert (Q : norm (q - Sphere.center_ s)%pt = Sphere.radius_ s).
  { cbn. on_reals. apply sqrt_of_sqr; [lra | ring]. }
  split; [exact Q |].
  exact (sphere_distance_below_surface_points s p q Q).
Defined.

(** ** Not-a-number on binary64 *)

Section NotANumber.

Local Open Scope float_scope.

Lemma float_of_spec_inj (a b : float) : Prim2SF a = Prim2SF b -> a = b.
Proof.
  intros E. rewrite <- (SF2Prim_Prim2SF a), <- (SF2Prim_Prim2SF b).
  now rewrite E.
Qed.

Lemma spec_of_nan : Prim2SF nan = S754_nan.
Proof. reflexivity. Qed.

Lemma add_nan_l (a : float) : nan + a = nan.
Proof.
  apply float_of_spec_inj. rewrite add_spec, spec_of_nan. reflexivity.
Qed.

Lemma add_nan_r (a : float) : a + nan = nan.
Proof.
  apply float_of_spec_inj. rewrite add_spec, spec_of_nan.
  unfold SF64add, SFadd. destruct (Prim2SF a); reflexivity.
Qed.

Lemma sub_nan_l (a : float) : nan - a = nan.
Proof.
  apply float_of_spec_inj. rewrite sub_spec, spec_of_nan. reflexivity.
Qed.

Lemma sub_nan_r (a : float) : a - nan = nan.
Proof.
  apply float_of_spec_inj. rewrite sub_spec, spec_of_nan.
  unfold SF64sub, SFsub. destruct (Prim2SF a); reflexivity.
Qed.

Lemma mul_nan_l (a : float) : nan * a = nan.
Proof.
  apply float_of_spec_inj. rewrite mul_spec, spec_of_nan. reflexivity.
Qed.

Lemma mul_nan_r (a : float) : a * nan = nan.
Proof.
  apply float_of_spec_inj. rewrite mul_spec, spec_of_nan.
  unfold SF64mul, SFmul. destruct (Prim2SF a); reflexivity.
Qed.

Lemma div_nan_l (a : float) : nan / a = nan.
Proof.
  apply float_of_spec_inj. rewrite div_spec, spec_of_nan. reflexivity.
Qed.

Lemma ltb_nan_l (a : float) : (nan <? a) = false.
Proof. rewrite ltb_spec, spec_of_nan. reflexivity. Qed.

Lemma ltb_nan_r (a : float) : (a <? nan) = false.
Proof.
  rewrite ltb_spec, spec_of_nan. unfold SFltb, SFcompare.
  destruct (Prim2SF a); reflexivity.
Qed.

Lemma ltb_infinity_l (a : float) : (infinity <? a) = false.
Proof.
  rewrite ltb_spec. change (Prim2SF infinity) with (S754_infinity false).
  unfold SFltb, SFcompare.
  destruct (Prim2SF a) as [[|] | [|] | | [|] ? ?]; reflexivity.
Qed.

End NotANumber.

(** Reads the interface at [float_Scalar] and lets not-a-number spread. *)
Ltac spread_nan :=
  cbv [fzero feps fadd fsub fmul fdiv fneg fsqr fsqrt fabs fltb float_Scalar
       norm squaredNorm dot Point_add Point_sub Point_scale x y z];
  repeat first
    [ rewrite add_nan_l | rewrite add_nan_r | rewrite sub_nan_l
    | rewrite sub_nan_r | rewrite mul_nan_l | rewrite mul_nan_r
    | rewrite div_nan_l | rewrite ltb_nan_l | rewrite ltb_nan_r
    | change (PrimFloat.sqrt nan) with nan
    | change (PrimFloat.opp nan) with nan
    | change (PrimFloat.abs nan) with nan ].

(** X16. On binary64, for every sphere, direction, range and state: a ray
    whose origin has a not-a-number coordinate is answered with a hit, and the
    stored point and distance are not-a-number.  None of the three tests of
    the query holds for a not-a-number. *)
Theorem nan_origin_hits_every_sphere
    (s : Sphere.t float) (o dir : Point float) (max_dist : float)
    (m : Mem float) :
  x o = nan \/ y o = nan \/ z o = nan ->
  getRayIntersection (AsSphere s) o dir max_dist m
  = (true, mkMem (pt nan nan nan) nan (cout m)).
Proof.
  destruct o as [o1 o2 o3], dir as [d1 d2 d3], m as [ip id co].
  cbn [getRayIntersection x y z].
  unfold Sphere.getRayIntersection. cbv zeta.
  destruct (Sphere.center_ s) as [c1 c2 c3].
  intros [E | [E | E]]; subst; spread_nan; reflexivity.
Qed.

(** A ray from [(nan, 0, 0)], far from a small sphere and pointing away
    from it. *)
Lemma nan_origin_witness :
  let s := Sphere.new (pt 100 100 100) 1%float in
  let o := pt nan 0 0 in
  (x o = nan \/ y o = nan \/ z o = nan)
  /\ getRayIntersection (AsSphere s) o (pt (-1) 0 0) 10%float mem0
     = (true, mkMem (pt nan nan nan) nan []).
Proof.
  intros s o.
  assert (N : x o = nan \/ y o = nan \/ z o = nan) by (left; reflexivity).
  split; [exact N |].
  exact (nan_origin_hits_every_sphere s o (pt (-1) 0 0) 10%float mem0 N).
Defined.

(** X17. On binary64, for every object, ray and state: with a
    not-a-number range the ray query answers as it does with an infinite
    range; the test [d > max_dist] rejects nothing. *)
Theorem nan_range_is_infinite_range
    (obj : AnyObject float) (o dir : Point float) (m : Mem float) :
  getRayIntersection obj o dir nan m
  = getRayIntersection obj o dir infinity m.
Proof.
  destruct obj as [b0 | s | c | pl]; cbn [getRayIntersection];
    try reflexivity.
  - unfold Sphere.getRayIntersection. cbv zeta.
    cbv [fltb float_Scalar]. now rewrite ltb_nan_l, ltb_infinity_l.
  - unfold Plane.getRayIntersection. cbv zeta.
    cbv [fltb float_Scalar]. now rewrite ltb_nan_l, ltb_infinity_l.
Qed.

(** X18. On binary64, for every sphere, cuboid and plane: the distance
    query asked at a point with a not-a-number coordinate returns
    not-a-number. *)
Theorem nan_point_gives_nan_distance
    (obj : AnyObject float) (p : Point float) :
  x p = nan \/ y p = nan \/ z p = nan ->
  match obj with
  | AsObject _ => getDistanceToPoint obj p = 0%float
  | _ => getDistanceToPoint obj p = nan
  end.
Proof.
  destruct p as [p1 p2 p3]. cbn [x y z].
  destruct obj as [b0 | s | c | pl]; cbn [getDistanceToPoint].
  - reflexivity.
  - unfold Sphere.getDistanceToPoint. cbv zeta.
    destruct (Sphere.center_ s) as [c1 c2 c3].
    intros [E | [E | E]]; subst; spread_nan; reflexivity.
  - unfold Cube.getDistanceToPoint. cbv zeta.
    destruct (Cube.center_ c) as [c1 c2 c3], (Cube.size_ c) as [s1 s2 s3].
    intros [E | [E | E]]; subst; unfold std_max; spread_nan; reflexivity.
  - unfold Plane.getDistanceToPoint. cbv zeta.
    destruct (Plane.normal_ pl) as [n1 n2 n3].
    intros [E | [E | E]]; subst; spread_nan; reflexivity.
Qed.

(** The unit cube asked at [(0, nan, 0)]. *)
Lemma nan_point_witness :
  let p := pt 0 nan 0 in
  (x p = nan \/ y p = nan \/ z p = nan)
  /\ getDistanceToPoint (AsCube (Cube.new (pt 0 0 0) (pt 1 1 1))) p = nan.
Proof.
  intros p.
  assert (N : x p = nan \/ y p = nan \/ z p = nan)
    by (right; left; reflexivity).
  split; [exact N |].
  exact (nan_point_gives_nan_distance
           (AsCube (Cube.new (pt 0 0 0) (pt 1 1 1))) p N).
Defined.

(** ** The sign of the radius on binary64 *)

Lemma mul_opp_opp (a : float) : (- a * - a = a * a)%float.
Proof.
  apply float_of_spec_inj. rewrite !mul_spec, opp_spec.
  unfold SF64mul, SFmul, SFopp.
  destruct (Prim2SF a) as [[|] | [|] | | [|] ? ?]; reflexivity.
Qed.

(** X19. On binary64 as on the reals, the ray query of a sphere answers
    the same for radius [r] and for radius [-r]: the square of the radius is
    the same float. *)
Theorem sphere_ray_ignores_radius_sign_binary64
    (base : Object.t float) (r : float) (o dir : Point float)
    (max_dist : float) (m : Mem float) :
  getRayIntersection (AsSphere (Sphere.mk base r)) o dir max_dist m
  = getRayIntersection (AsSphere (Sphere.mk base (- r)%float)) o dir
      max_dist m.
Proof.
  cbn [getRayIntersection]. unfold Sphere.getRayIntersection.
  cbn [Sphere.radius_]. unfold Sphere.center_. cbn [Sphere.base].
  change (@fsqr float float_Scalar (- r)%float) with (- r * - r)%float.
  change (@fsqr float float_Scalar r) with (r * r)%float.
  now rewrite mul_opp_opp.
Qed.

(** ** Rays that start on the surface, rays that point away *)

(** X20. On the reals, for every sphere: a ray that starts on the surface
    and does not point away from the centre is answered, within any
    non-negative range, with a hit at distance [0] whose point is the ray
    origin; the far side of the sphere is not reported. *)
Theorem sphere_ray_from_the_surface
    (s : Sphere.t R) (o dir : Point R) (max_dist : R) (m : Mem R) :
  sphere_c s o = 0%R ->
  (sphere_b s o dir <= 0)%R ->
  (0 <= max_dist)%R ->
  fst (getRayIntersection (AsSphere s) o dir max_dist m) = true
  /\ outputs (snd (getRayIntersection (AsSphere s) o dir max_dist m))
     = (o, 0%R).
Proof.
  intros C B L.
  assert (D : sphere_discriminant s o dir
              = (- sphere_b s o dir * - sphere_b s o dir)%R).
  { unfold sphere_discriminant. rewrite C. ring. }
  assert (N : sphere_near_root s o dir = 0%R).
  { unfold sphere_near_root. rewrite D, sqrt_square by lra. ring. }
  cbn [getRayIntersection]. rewrite Sphere_getRayIntersection_cases.
  rewrite N, D. pose proof (Rle_0_sqr (- sphere_b s o dir)) as Q.
  unfold Rsqr in Q. by_comparisons. cbn [fst snd].
  split; [reflexivity |]. unfold outputs.
  cbn [intersect_point intersect_dist]. f_equal.
  destruct o as [o1 o2 o3], dir as [d1 d2 d3]. coefficients. on_reals.
  f_equal; ring.
Qed.

(** From [(-1,0,0)], a point of the unit sphere at the origin, inward. *)
Lemma sphere_ray_from_the_surface_witness :
  let s := Sphere.new (mkPoint 0 0 0)%R 1%R in
  let o := mkPoint (-1)%R 0%R 0%R in
  let dir := mkPoint 1%R 0%R 0%R in
  let m := mkMem (mkPoint 7 7 7)%R 7%R [] in
  (sphere_c s o = 0%R /\ (sphere_b s o dir <= 0)%R /\ (0 <= 3)%R)
  /\ fst (getRayIntersection (AsSphere s) o dir 3%R m) = true
  /\ outputs (snd (getRayIntersection (AsSphere s) o dir 3%R m)) = (o, 0%R).
Proof.
  intros s o dir m.
  assert (C : sphere_c s o = 0%R)
    by (unfold sphere_c; cbn; on_reals; ring).
  assert (B : (sphere_b s o dir <= 0)%R).
  { replace (sphere_b s o dir) with (-1)%R; [lra |].
    unfold sphere_b. cbn. on_reals. ring. }
  assert (L : (0 <= 3)%R) by lra.
  split; [split; [exact C | split; [exact B | exact L]] |].
  exact (sphere_ray_from_the_surface s o dir 3%R m C B L).
Defined.

(** X21. On the reals, a plane answers a ray with a hit exactly when the
    ray is not rejected as parallel, the side of the origin and the
    direction are opposed ([((origin - center) . normal) * (direction .
    normal) <= 0]) and [d] is within the range.  In particular a ray that
    moves away from the plane is never answered with a hit. *)
Theorem plane_hit_iff
    (pl : Plane.t R) (o dir : Point R) (max_dist : R) (m : Mem R) :
  (fst (getRayIntersection (AsPlane pl) o dir max_dist m) = true
   <-> 1 / 1000000 <= Rabs (plane_denominator pl dir)
       /\ dot (o - Plane.center_ pl)%pt (Plane.normal_ pl)
          * plane_denominator pl dir <= 0
       /\ plane_d pl o dir <= max_dist)%R.
Proof.
  assert (S : forall num den : R,
             den <> 0%R -> (0 <= num / den <-> 0 <= num * den)%R).
  { intros num den N.
    replace (num * den)%R with (num / den * (den * den))%R by (field; exact N).
    assert (0 < den * den)%R by nra. split; intros; nra. }
  assert (O : dot (o - Plane.center_ pl)%pt (Plane.normal_ pl)
              = (- dot (Plane.center_ pl - o)%pt (Plane.normal_ pl))%R).
  { destruct o, (Plane.center_ pl), (Plane.normal_ pl).
    coefficients. on_reals. ring. }
  rewrite O.
  cbn [getRayIntersection]. rewrite Plane_getRayIntersection_cases. cbv zeta.
  unfold plane_d at 1 2 3 4.
  set (num := dot (Plane.center_ pl - o)%pt (Plane.normal_ pl)).
  set (den := plane_denominator pl dir).
  fold (plane_d pl o dir). unfold plane_d. fold num den.
  destruct (Rltb (Rabs den) (1 / 1000000)) eqn:T;
    [apply Rltb_true in T | apply Rltb_false in T].
  - cbn [fst]. split; [discriminate | lra].
  - assert (N : den <> 0%R).
    { intros Z. rewrite Z, Rabs_R0 in T. lra. }
    specialize (S num den N).
    by_comparisons; cbn [fst]; split; try discriminate; try reflexivity;
      intros; try (repeat split; lra); try lra.
    all: try (destruct S as [S1 S2]; nra).
Qed.

(** ** The two queries together *)

Section DistanceAgainstHit.

Local Open Scope R_scope.

Lemma abs_dot_le (u v : Point R) (k : R) :
  squaredNorm u = 1 -> norm v = k -> Rabs (dot u v) <= k.
Proof.
  intros U K.
  pose proof (dot_sqr_le u v) as C. rewrite U in C.
  pose proof (norm_nonneg v) as P.
  assert (S : norm v * norm v = squaredNorm v)
    by (apply sqrt_sqrt, squaredNorm_nonneg).
  rewrite K in P, S. apply Rabs_le. split; nra.
Qed.

Lemma sphere_distance_le_gap (s : Sphere.t R) (p q : Point R) :
  norm (q - Sphere.center_ s)%pt = Sphere.radius_ s ->
  Rabs (Sphere.getDistanceToPoint s p) <= norm (p - q)%pt.
Proof.
  intros Q.
  rewrite Sphere_getDistanceToPoint_formula, <- Q, (norm_sub_sym q).
  pose proof (norm_sub_le_via (Sphere.center_ s) p q) as A.
  pose proof (norm_sub_le_via (Sphere.center_ s) q p) as B.
  rewrite (norm_sub_sym q p) in B.
  apply Rabs_le. lra.
Qed.

Lemma plane_distance_as_dot (pl : Plane.t R) (p q : Point R) :
  norm (Plane.normal_ pl) = 1 ->
  dot (q - Plane.center_ pl)%pt (Plane.normal_ pl) = 0 ->
  Plane.getDistanceToPoint pl p = dot (Plane.normal_ pl) (p - q)%pt.
Proof.
  intros U Q. rewrite Plane_getDistanceToPoint_formula, U.
  unfold plane_offset. revert Q.
  destruct p, q, (Plane.center_ pl), (Plane.normal_ pl).
  coefficients. on_reals. intros Q. lra.
Qed.

End DistanceAgainstHit.

(** X22. On the reals, for every object and every ray with a unit
    direction, the sphere having a non-negative radius and the plane a unit
    normal: when the ray query reports a hit, the stored distance is at least
    the absolute value of what the distance query returns at the ray origin.
    The distance query never promises more free space than a ray finds. *)
Theorem distance_at_origin_below_hit_distance
    (obj : AnyObject R) (o dir : Point R) (max_dist : R) (m : Mem R) :
  squaredNorm dir = 1%R ->
  match obj with
  | AsSphere s => (0 <= Sphere.radius_ s)%R
  | AsPlane pl => norm (Plane.normal_ pl) = 1%R
  | _ => True
  end ->
  fst (getRayIntersection obj o dir max_dist m) = true ->
  (Rabs (getDistanceToPoint obj o)
   <= intersect_dist (snd (getRayIntersection obj o dir max_dist m)))%R.
Proof.
  intros U W Y.
  pose proof (hit_writes_tested_distance obj o dir max_dist m Y) as H.
  cbv zeta in H. destruct H as (A & _ & E).
  apply Rltb_false in A. change (@fzero R R_Scalar) with 0%R in A.
  set (m' := snd (getRayIntersection obj o dir max_dist m)) in *.
  assert (G : norm (o - intersect_point m')%pt = intersect_dist m').
  { rewrite norm_sub_sym, E, add_then_sub.
    now apply norm_of_scaled_unit. }
  destruct obj as [b0 | s | c | pl]; cbn [getDistanceToPoint].
  - discriminate.
  - rewrite <- G. apply sphere_distance_le_gap.
    destruct (Sphere_hit_state s o dir max_dist m Y) as [D S].
    unfold m'. rewrite S. cbn [intersect_point].
    rewrite norm_is_sqrt, (near_root_on_sphere U D).
    now apply sqrt_pow2.
  - discriminate.
  - destruct (Plane_hit_state pl o dir max_dist m Y) as [D S].
    assert (N : plane_denominator pl dir <> 0%R).
    { intros Z. rewrite Z, Rabs_R0 in D. lra. }
    assert (Q : dot (intersect_point m' - Plane.center_ pl)%pt
                    (Plane.normal_ pl) = 0%R).
    { unfold m'. rewrite S. now apply plane_point_at_d. }
    rewrite (plane_distance_as_dot pl o (intersect_point m') W Q).
    apply abs_dot_le; [now apply norm_one_squaredNorm | exact G].
Qed.

(** The unit sphere at the origin from [(-5,0,0)]: the centre is [5]
    away, the surface [4], and the hit is at [4]. *)
Lemma distance_below_hit_witness :
  let obj := AsSphere (Sphere.new (mkPoint 0 0 0) 1)%R in
  let o := mkPoint (-5)%R 0%R 0%R in
  let dir := mkPoint 1%R 0%R 0%R in
  let m := mkMem (mkPoint 7 7 7)%R 7%R [] in
  (squaredNorm dir = 1%R
   /\ fst (getRayIntersection obj o dir 10%R m) = true)
  /\ (Rabs (getDistanceToPoint obj o)
      <= intersect_dist (snd (getRayIntersection obj o dir 10%R m)))%R.
Proof.
  intros obj o dir m.
  assert (U : squaredNorm dir = 1%R) by (cbn; on_reals; ring).
  assert (W : (0 <= Sphere.radius_ (Sphere.new (mkPoint 0 0 0) 1))%R)
    by (cbn; lra).
  assert (Y : fst (getRayIntersection obj o dir 10%R m) = true).
  { unfold obj, o, dir. rewrite unit_sphere_axis_ray by lra. reflexivity. }
  split; [split; [exact U | exact Y] |].
  exact (distance_at_origin_below_hit_distance obj o dir 10%R m U W Y).
Defined.

(** * The queries on the arithmetic of the code *)

(** ** The order of binary64 *)

Section Binary64Order.

Local Open Scope float_scope.

Lemma spec_is_nan (a : float) : Prim2SF a = S754_nan -> a = nan.
Proof. intros E. apply float_of_spec_inj. now rewrite E. Qed.

Lemma SFcompare_swap (u v : spec_float) :
  SFcompare v u = option_map CompOpp (SFcompare u v).
Proof.
  destruct u as [[|] | [|] | | [|] mu eu], v as [[|] | [|] | | [|] mv ev];
    try reflexivity; cbn [SFcompare option_map];
    rewrite (Z.compare_antisym eu ev);
    destruct (eu ?= ev)%Z; cbn [CompOpp]; try reflexivity;
    pose proof (Pos.compare_cont_antisym mu mv Eq) as P;
    cbn [CompOpp] in P; rewrite <- P;
    now destruct (Pos.compare_cont Eq mu mv).
Qed.

(** What is not below is above or equal, up to not-a-number. *)
Lemma not_ltb_leb (a b : float) :
  (a <? b) = false -> a = nan \/ b = nan \/ (b <=? a) = true.
Proof.
  rewrite ltb_spec, leb_spec. unfold SFltb, SFleb.
  rewrite (SFcompare_swap (Prim2SF a) (Prim2SF b)).
  destruct (Prim2SF a) eqn:A; try (left; now apply spec_is_nan);
    destruct (Prim2SF b) eqn:B; try (right; left; now apply spec_is_nan);
    destruct (SFcompare _ _) as [[| |] |] eqn:C; cbn; intros H;
    try discriminate; auto; cbn in C; try discriminate;
    repeat match goal with
    | s : bool |- _ => destruct s
    end; discriminate.
Qed.

(** A number at or above zero is above every negative number. *)
Lemma above_negative_is_nan (k d : float) :
  (k <? 0) = true -> (d <? 0) = false -> (k <? d) = false -> d = nan.
Proof.
  rewrite !ltb_spec. change (Prim2SF 0) with (S754_zero false).
  unfold SFltb.
  destruct (Prim2SF k) as [[|] | [|] | | [|] mk ek];
    destruct (Prim2SF d) as [[|] | [|] | | [|] md ed] eqn:D;
    cbn; intros K N L; try discriminate; now apply spec_is_nan.
Qed.

Lemma sub_self_finite (a : float) : is_finite a = true -> a - a = 0.
Proof.
  unfold is_finite, is_nan, is_infinity.
  rewrite !FloatAxioms.eqb_spec, abs_spec.
  change (Prim2SF infinity) with (S754_infinity false).
  intros H. apply float_of_spec_inj. rewrite sub_spec.
  change (Prim2SF 0) with (S754_zero false).
  destruct (Prim2SF a) as [[|] | [|] | | s m e]; try reflexivity;
    try discriminate.
  unfold SF64sub, SFsub. cbv zeta. rewrite Z.sub_diag. reflexivity.
Qed.

Lemma zero_sub (a : float) : 0 - a = - a \/ (a = 0 /\ 0 - a = 0).
Proof.
  destruct (Prim2SF a) as [[|] | [|] | | s m e] eqn:A;
    try (left; apply float_of_spec_inj;
         rewrite sub_spec, opp_spec, A; reflexivity).
  right. assert (E : a = 0) by (apply float_of_spec_inj; now rewrite A).
  split; [exact E | now rewrite E].
Qed.

End Binary64Order.

(** ** The bodies over the values they compute *)

Section BodiesComputed.

Context {F : Type} {SF : Scalar F}.
Local Open Scope fp_scope.

Lemma Sphere_getRayIntersection_computed
    (s : Sphere.t F) (o dir : Point F) (max_dist : F) (m : Mem F) :
  Sphere.getRayIntersection s o dir max_dist m =
    if computed_discriminant s o dir <? fzero then (false, m)
    else if computed_root s o dir <? fzero then (false, m)
    else if computed_root s o dir >? max_dist then (false, m)
    else (true, mkMem (o + computed_root s o dir *: dir)%pt
                      (computed_root s o dir) (cout m)).
Proof.
  unfold Sphere.getRayIntersection. cbv zeta.
  fold (computed_discriminant s o dir). fold (computed_root s o dir).
  destruct (computed_discriminant s o dir <? fzero); [reflexivity |].
  destruct (computed_root s o dir <? fzero); [reflexivity |].
  destruct (computed_root s o dir >? max_dist); reflexivity.
Qed.

Lemma Plane_getRayIntersection_computed
    (pl : Plane.t F) (o dir : Point F) (max_dist : F) (m : Mem F) :
  Plane.getRayIntersection pl o dir max_dist m =
    if fabs (computed_denominator pl dir) <? feps then (false, m)
    else
      let printed := (cout m ++ plane_trace (computed_d pl o dir))%list in
      if computed_d pl o dir <? fzero
      then (false, mkMem (intersect_point m) (intersect_dist m) printed)
      else if computed_d pl o dir >? max_dist
      then (false, mkMem (intersect_point m) (intersect_dist m) printed)
      else (true, mkMem (o + computed_d pl o dir *: dir)%pt
                        (computed_d pl o dir) printed).
Proof.
  destruct m as [ip id co]. unfold Plane.getRayIntersection. cbv zeta.
  fold (computed_denominator pl dir). fold (computed_d pl o dir).
  destruct (fabs (computed_denominator pl dir) <? feps); [reflexivity |].
  statements. unfold plane_trace. rewrite <- !app_assoc. cbn [app].
  destruct (computed_d pl o dir <? fzero); [reflexivity |].
  destruct (computed_d pl o dir >? max_dist); reflexivity.
Qed.

Lemma Cube_getDistanceToPoint_computed (cb : Cube.t F) (p : Point F) :
  Cube.getDistanceToPoint cb p =
    if norm (computed_clamped cb p) <? feps
    then maxCoeff (computed_unclamped cb p)
    else norm (computed_clamped cb p).
Proof. reflexivity. Qed.

End BodiesComputed.

Lemma computed_discriminant_on_reals (s : Sphere.t R) (o dir : Point R) :
  computed_discriminant s o dir = sphere_discriminant s o dir.
Proof. apply under_square_root_is_discriminant. Qed.

Lemma computed_root_on_reals (s : Sphere.t R) (o dir : Point R) :
  computed_root s o dir = sphere_near_root s o dir.
Proof.
  unfold computed_root. rewrite computed_discriminant_on_reals. reflexivity.
Qed.

(** ** Sphere: ray intersection, as computed *)

(** C5, as the header computes it. On any arithmetic, for every sphere and
    every ray: the query computes the discriminant as
    [(b^2 - |origin - center|^2) + radius^2] with [b = direction . (origin -
    center)], each operation in the arithmetic of the code; when the test
    [discriminant < 0] holds it gives no result; otherwise it takes
    [d = -b - sqrt(discriminant)], gives no result when the test [d < 0] or
    the test [d > maxDistance] holds, and otherwise stores
    [origin + d * direction] and [d] and reports a hit.  On binary64, for the
    unit sphere at the origin and the ray from [(-5,0,0)] along [(1,0,0)],
    within any range not below [4], the hit is [(-1,0,0)] at distance [4],
    below the other root.  In exact real arithmetic the computed discriminant
    is [b^2 - c] with [c = |origin - center|^2 - radius^2], [d] is the smaller
    root, and for a unit direction the stored point lies on the sphere and no
    earlier point of the ray does. *)
Theorem sphere_ray_as_computed :
  (forall (F : Type) (SF : Scalar F) (s : Sphere.t F) (o dir : Point F)
          (max_dist : F) (m : Mem F),
     let disc := computed_discriminant s o dir in
     let d := computed_root s o dir in
     let res := getRayIntersection (AsSphere s) o dir max_dist m in
     ((disc <? fzero)%fp = true -> res = (false, m))
     /\ ((disc <? fzero)%fp = false ->
         (d <? fzero)%fp = true \/ (d >? max_dist)%fp = true ->
         res = (false, m))
     /\ ((disc <? fzero)%fp = false ->
         (d <? fzero)%fp = false -> (d >? max_dist)%fp = false ->
         res = (true, mkMem (o + d *: dir)%pt d (cout m))))
  /\ (forall (max_dist : float) (m : Mem float),
        let s := Sphere.new (pt 0 0 0) 1%float in
        (max_dist <? 4)%float = false ->
        getRayIntersection (AsSphere s) (pt (-5) 0 0) (pt 1 0 0) max_dist m
          = (true, mkMem (pt (-1) 0 0) 4%float (cout m))
        /\ (4 <? computed_far_root s (pt (-5) 0 0) (pt 1 0 0))%float = true)
  /\ (forall (s : Sphere.t R) (o dir : Point R),
        let d := computed_root s o dir in
        (computed_discriminant s o dir = sphere_b s o dir ^ 2 - sphere_c s o
         /\ d = - sphere_b s o dir - sqrt (computed_discriminant s o dir)
         /\ d <= sphere_far_root s o dir
         /\ (squaredNorm dir = 1 -> 0 <= computed_discriminant s o dir ->
             squaredNorm (o + d *: dir - Sphere.center_ s)%pt
               = Sphere.radius_ s ^ 2
             /\ forall t, t < d ->
                squaredNorm (o + t *: dir - Sphere.center_ s)%pt
                  > Sphere.radius_ s ^ 2))%R).
Proof.
  split; [| split].
  - intros F SF s o dir max_dist m disc d res.
    assert (E : res = _) by apply Sphere_getRayIntersection_computed.
    fold disc d in E. rewrite E.
    split; [| split].
    + intros ->. reflexivity.
    + intros -> [-> | H]; [reflexivity |].
      destruct (d <? fzero)%fp; [reflexivity | now rewrite H].
    + intros -> -> ->. reflexivity.
  - intros max_dist m s L. split; [| vm_compute; reflexivity].
    cbn [getRayIntersection]. rewrite Sphere_getRayIntersection_computed.
    assert (D : computed_discriminant s (pt (-5) 0 0) (pt 1 0 0) = 1%float)
      by (vm_compute; reflexivity).
    assert (N : computed_root s (pt (-5) 0 0) (pt 1 0 0) = 4%float)
      by (vm_compute; reflexivity).
    rewrite D, N. change (@fltb float float_Scalar) with PrimFloat.ltb.
    rewrite L.
    change (1 <? fzero)%float with false. change (4 <? fzero)%float with false.
    cbv iota. f_equal.
  - intros s o dir d. unfold d.
    rewrite computed_root_on_reals, computed_discriminant_on_reals.
    split; [reflexivity | split; [reflexivity | split]].
    + apply near_root_le_far_root.
    + intros U D. split.
      * now apply near_root_on_sphere.
      * intros t L. now apply before_near_root_outside.
Qed.

(** C5, as stated, fails on the code: the ray from [(-1000000000, 5, 0)]
    along [(1,0,0)] passes the unit sphere at the origin at distance [5]; its
    discriminant is [-24].  On binary64 [10^18 + 25] rounds to [10^18], the
    computed discriminant is [1], and the query reports a hit at distance
    [999999999]. *)
Lemma sphere_phantom_hit_binary64 :
  getRayIntersection (AsSphere (Sphere.new (pt 0 0 0) 1%float))
    (pt (-1000000000) 5 0) (pt 1 0 0) 2000000000%float mem0
  = (true, mkMem (pt (-1) 5 0) 999999999%float [])
  /\ (sphere_discriminant (Sphere.new (mkPoint 0 0 0) 1)
        (mkPoint (-1000000000) 5 0) (mkPoint 1 0 0) = -24)%R.
Proof.
  split; [vm_compute; reflexivity |].
  unfold sphere_discriminant, sphere_c, sphere_b. cbn. on_reals. ring.
Qed.

(** On binary64: the ray of the example, within range [10]. *)
Lemma sphere_ray_as_computed_witness :
  (10 <? 4)%float = false
  /\ getRayIntersection (AsSphere (Sphere.new (pt 0 0 0) 1%float))
       (pt (-5) 0 0) (pt 1 0 0) 10%float mem0
     = (true, mkMem (pt (-1) 0 0) 4%float []).
Proof.
  assert (L : (10 <? 4)%float = false) by reflexivity.
  split; [exact L |].
  destruct sphere_ray_as_computed as (_ & G & _).
  exact (proj1 (G 10%float mem0 L)).
Defined.

(** ** Plane: ray intersection, as computed *)

Lemma computed_denominator_on_reals (pl : Plane.t R) (dir : Point R) :
  computed_denominator pl dir = plane_denominator pl dir.
Proof. reflexivity. Qed.

Lemma computed_d_on_reals (pl : Plane.t R) (o dir : Point R) :
  computed_d pl o dir = plane_d pl o dir.
Proof. reflexivity. Qed.




(** ** Cube: distance, as computed *)

Lemma computed_clamped_norm_on_reals (cb : Cube.t R) (p : Point R) :
  norm (computed_clamped cb p) = cube_clamped_norm cb p.
Proof.
  unfold computed_clamped, cube_clamped_norm, clamped_term. cbv zeta.
  rewrite !std_max_Rmax. unfold norm, squaredNorm. cbn [x y z]. on_reals.
  f_equal. ring.
Qed.

Lemma computed_unclamped_max_on_reals (cb : Cube.t R) (p : Point R) :
  maxCoeff (computed_unclamped cb p) = cube_fallback cb p.
Proof.
  unfold computed_unclamped, cube_fallback, unclamped_term. cbv zeta.
  now rewrite maxCoeff_Rmax, !std_max_Rmax.
Qed.

(** C7, as the header computes it. On any arithmetic, for every cuboid and
    every point: the query computes per axis
    [max(max(c - h - p, 0), p - c - h)], each operation in the arithmetic of
    the code, and returns the norm of the three terms, unless the test
    [norm < 1e-6] holds; then it returns the largest of the three terms
    [max(c - h - p, p - c - h)].  On binary64, for the cuboid centred at the
    origin with half-extents [(1,1,1)], the distance of [(3,0,0)] is [2] and
    that of the origin is [-1].  In exact real arithmetic the value of the
    second branch is non-positive exactly for the points inside the box or on
    its surface and positive exactly for the points outside. *)
Theorem cube_distance_as_computed :
  (forall (F : Type) (SF : Scalar F) (cb : Cube.t F) (p : Point F),
     let n := norm (computed_clamped cb p) in
     ((n <? feps)%fp = false -> getDistanceToPoint (AsCube cb) p = n)
     /\ ((n <? feps)%fp = true ->
         getDistanceToPoint (AsCube cb) p
         = maxCoeff (computed_unclamped cb p)))
  /\ (let cb := Cube.new (pt 0 0 0) (pt 1 1 1) in
      getDistanceToPoint (AsCube cb) (pt 3 0 0) = 2%float
      /\ getDistanceToPoint (AsCube cb) (pt 0 0 0) = (-1)%float)
  /\ (forall (cb : Cube.t R) (p : Point R),
        let n := norm (computed_clamped cb p) in
        let fb := maxCoeff (computed_unclamped cb p) in
        (n = sqrt (clamped_term (x (Cube.center_ cb)) (x (Cube.size_ cb)) (x p) ^ 2
                   + clamped_term (y (Cube.center_ cb)) (y (Cube.size_ cb)) (y p) ^ 2
                   + clamped_term (z (Cube.center_ cb)) (z (Cube.size_ cb)) (z p) ^ 2)
         /\ (1 / 1000000 <= n -> getDistanceToPoint (AsCube cb) p = n)
         /\ (n < 1 / 1000000 -> getDistanceToPoint (AsCube cb) p = fb)
         /\ (fb <= 0 <-> in_closed_box cb p)
         /\ (0 < fb <-> ~ in_closed_box cb p))%R).
Proof.
  split; [| split].
  - intros F SF cb p n. cbn [getDistanceToPoint].
    rewrite Cube_getDistanceToPoint_computed. fold n.
    split; intros ->; reflexivity.
  - split; vm_compute; reflexivity.
  - intros cb p n fb. unfold n, fb.
    rewrite computed_clamped_norm_on_reals, computed_unclamped_max_on_reals.
    cbn [getDistanceToPoint]. rewrite Cube_getDistanceToPoint_cases.
    pose proof (cube_fallback_nonpos cb p) as I.
    split; [reflexivity |].
    split; [| split; [| split; [exact I | split]]].
    + intros L. by_comparisons.
    + intros L. by_comparisons.
    + intros L B. apply I in B. lra.
    + intros B. apply Rnot_le_lt. tauto.
Qed.

(** C7, as stated, fails on the code: the point [(10000000000000000, 0,
    0)] is outside the cuboid centred at [(10000000000000002, 0, 0)] with
    half-extents [(1,1,1)], at distance [1].  On binary64
    [10000000000000002 - 1] rounds to [10000000000000000], every clamped term
    is [0], and the query returns [0] from its second branch. *)
Lemma cube_distance_zero_outside_binary64 :
  getDistanceToPoint
    (AsCube (Cube.new (pt 10000000000000002 0 0) (pt 1 1 1)))
    (pt 10000000000000000 0 0) = 0%float
  /\ (let cb := Cube.new (mkPoint 10000000000000002 0 0) (mkPoint 1 1 1) in
      let p := mkPoint 10000000000000000 0 0 in
      ~ in_closed_box cb p /\ getDistanceToPoint (AsCube cb) p = 1)%R.
Proof.
  split; [vm_compute; reflexivity |].
  intros cb p. split.
  - unfold in_closed_box. cbn. lra.
  - cbn [getDistanceToPoint]. rewrite Cube_getDistanceToPoint_cases.
    assert (N : cube_clamped_norm cb p = 1%R).
    { unfold cube_clamped_norm, clamped_term. cbn.
      apply sqrt_of_sqr; [lra |]. eval_Rmax. }
    rewrite N. by_comparisons.
Qed.

(** On binary64: the point [(3,0,0)] takes the first branch. *)
Lemma cube_distance_as_computed_witness :
  let cb := Cube.new (pt 0 0 0) (pt 1 1 1) in
  (norm (computed_clamped cb (pt 3 0 0)) <? feps)%fp = false
  /\ getDistanceToPoint (AsCube cb) (pt 3 0 0)
     = norm (computed_clamped cb (pt 3 0 0)).
Proof.
  intros cb.
  assert (T : (norm (computed_clamped cb (pt 3 0 0)) <? feps)%fp = false)
    by (vm_compute; reflexivity).
  split; [exact T |].
  destruct cube_distance_as_computed as (G & _).
  exact (proj1 (G float float_Scalar cb (pt 3 0 0)) T).
Defined.

(** ** Sphere: distance, as computed *)

(** C4, as the header computes it. On any arithmetic, for every sphere and
    every point, the distance query returns [norm(center - point) - radius],
    each operation in the arithmetic of the code.  On binary64, at a centre
    with finite coordinates it returns [0 - radius], which is [-radius] (and
    [+0] for the radius [+0]).  In exact real arithmetic the result is
    [|point - center| - radius]: negative exactly strictly inside the sphere,
    zero exactly on the surface, positive exactly outside. *)
Theorem sphere_distance_as_computed :
  (forall (F : Type) (SF : Scalar F) (s : Sphere.t F) (p : Point F),
     getDistanceToPoint (AsSphere s) p
     = (norm (Sphere.center_ s - p)%pt - Sphere.radius_ s)%fp)
  /\ (forall s : Sphere.t float,
        let c := Sphere.center_ s in
        let r := Sphere.radius_ s in
        is_finite (x c) = true -> is_finite (y c) = true ->
        is_finite (z c) = true ->
        getDistanceToPoint (AsSphere s) c = (0 - r)%float
        /\ (getDistanceToPoint (AsSphere s) c = (- r)%float
            \/ (r = 0%float /\ getDistanceToPoint (AsSphere s) c = 0%float)))
  /\ (forall (s : Sphere.t R) (p : Point R),
        let c := Sphere.center_ s in
        let r := Sphere.radius_ s in
        (getDistanceToPoint (AsSphere s) p = norm (p - c)%pt - r
         /\ getDistanceToPoint (AsSphere s) c = - r
         /\ (norm (p - c)%pt < r <-> getDistanceToPoint (AsSphere s) p < 0)
         /\ (norm (p - c)%pt = r <-> getDistanceToPoint (AsSphere s) p = 0)
         /\ (norm (p - c)%pt > r <-> getDistanceToPoint (AsSphere s) p > 0))%R).
Proof.
  split; [| split].
  - reflexivity.
  - intros s c r FX FY FZ.
    assert (E : getDistanceToPoint (AsSphere s) c = (0 - r)%float).
    { cbn [getDistanceToPoint]. unfold Sphere.getDistanceToPoint. fold c r.
      destruct c as [c1 c2 c3]. cbn [x y z] in FX, FY, FZ.
      cbv [norm squaredNorm Point_sub x y z fadd fsub fmul fsqrt
           float_Scalar].
      rewrite !sub_self_finite by assumption. reflexivity. }
    split; [exact E |]. rewrite E.
    destruct (zero_sub r) as [Z | [Z1 Z2]]; [left | right]; auto.
  - intros s p c r. cbn [getDistanceToPoint].
    rewrite !Sphere_getDistanceToPoint_formula. fold c r.
    rewrite (norm_sub_sym c p), (norm_sub_self c).
    repeat split; intros; lra.
Qed.

(** C4, as stated, fails on the code: the point [(9007199254740992, 1,
    0)] is strictly outside the sphere of radius [9007199254740992] centred at
    the origin.  On binary64 [2^106 + 1] rounds to [2^106], the computed norm
    is the radius, and the query returns [0], the value of a point of the
    surface. *)
Lemma sphere_distance_zero_outside_binary64 :
  getDistanceToPoint
    (AsSphere (Sphere.new (pt 0 0 0) 9007199254740992%float))
    (pt 9007199254740992 1 0) = 0%float
  /\ (norm (mkPoint 9007199254740992 1 0 - mkPoint 0 0 0)%pt
      > 9007199254740992)%R.
Proof.
  split; [vm_compute; reflexivity |].
  rewrite norm_is_sqrt.
  rewrite <- (sqrt_square 9007199254740992%R) at 2 by lra.
  apply sqrt_lt_1_alt. cbn. on_reals. lra.
Qed.

(** On binary64: the sphere of radius [2] centred at [(1,2,3)]. *)
Lemma sphere_distance_as_computed_witness :
  let s := Sphere.new (pt 1 2 3) 2%float in
  (is_finite (x (Sphere.center_ s)) = true
   /\ is_finite (y (Sphere.center_ s)) = true
   /\ is_finite (z (Sphere.center_ s)) = true)
  /\ getDistanceToPoint (AsSphere s) (Sphere.center_ s) = (0 - 2)%float.
Proof.
  intros s.
  assert (FX : is_finite (x (Sphere.center_ s)) = true) by reflexivity.
  assert (FY : is_finite (y (Sphere.center_ s)) = true) by reflexivity.
  assert (FZ : is_finite (z (Sphere.center_ s)) = true) by reflexivity.
  split; [split; [exact FX | split; [exact FY | exact FZ]] |].
  destruct sphere_distance_as_computed as (_ & G & _).
  exact (proj1 (G s FX FY FZ)).
Defined.

(** ** The range of a hit, as tested *)

(** C2, as the header tests it. On any arithmetic, for every object and
    every ray, a hit is reported only for a distance [d] that passes both
    range tests of the code: neither [d < 0] nor [d > maxDistance] holds.  On
    binary64 such a [d] is a number of the closed interval [[0, maxDistance]]
    or not-a-number (or the range is not-a-number); with [maxDistance < 0]
    the only hit there can be carries a not-a-number distance.  In exact real
    arithmetic the query returns no result whenever [maxDistance < 0], and a
    hit has its distance in [[0, maxDistance]]. *)
Theorem hit_passes_both_range_tests :
  (forall (F : Type) (SF : Scalar F) (obj : AnyObject F) (o dir : Point F)
          (max_dist : F) (m : Mem F),
     let res := getRayIntersection obj o dir max_dist m in
     fst res = true ->
     (intersect_dist (snd res) <? fzero)%fp = false
     /\ (intersect_dist (snd res) >? max_dist)%fp = false)
  /\ (forall (obj : AnyObject float) (o dir : Point float)
             (max_dist : float) (m : Mem float),
        let res := getRayIntersection obj o dir max_dist m in
        let d := intersect_dist (snd res) in
        fst res = true ->
        (d = nan \/ max_dist = nan
         \/ ((0 <=? d)%float = true /\ (d <=? max_dist)%float = true))
        /\ ((max_dist <? 0)%float = true -> d = nan))
  /\ (forall (obj : AnyObject R) (o dir : Point R) (max_dist : R)
             (m : Mem R),
        let res := getRayIntersection obj o dir max_dist m in
        ((max_dist < 0 -> fst res = false)
         /\ (fst res = true ->
             0 <= intersect_dist (snd res) <= max_dist))%R).
Proof.
  split; [| split].
  - intros F SF obj o dir max_dist m res Y.
    destruct (hit_writes_tested_distance obj o dir max_dist m Y)
      as (A & B & _).
    split; assumption.
  - intros obj o dir max_dist m res d Y.
    destruct (hit_writes_tested_distance obj o dir max_dist m Y)
      as (A & B & _).
    fold res in A, B. fold d in A, B.
    change (@fltb float float_Scalar) with PrimFloat.ltb in A, B.
    change (@fzero float float_Scalar) with 0%float in A.
    split.
    + destruct (not_ltb_leb d 0 A) as [N | [N | N]];
        [left; exact N | discriminate |].
      destruct (not_ltb_leb max_dist d B) as [M | [M | M]];
        [right; left; exact M | left; exact M |].
      right; right. split; assumption.
    + intros K. exact (above_negative_is_nan max_dist d K A B).
  - intros obj o dir max_dist m res.
    assert (H : fst res = true ->
                (0 <= intersect_dist (snd res) <= max_dist)%R).
    { intros Y.
      destruct (hit_writes_tested_distance obj o dir max_dist m Y)
        as (A & B & _).
      fold res in A, B.
      apply Rltb_false in A. apply Rltb_false in B.
      change (@fzero R R_Scalar) with 0%R in A. lra. }
    split; [| exact H].
    intros L. destruct (fst res); [| reflexivity].
    specialize (H eq_refl). lra.
Qed.

(** C2, as stated, fails on the code, on binary64.  With range [0] the ray
    from [(-1,0,0)], a point of the unit sphere at the origin, along
    [(1,0,0)] is answered with a hit at distance [0], which is outside
    [(0, maxDistance]].  With range [-1] the ray from [(-2^600, 0, 0)] is
    answered with a hit: the squares overflow, the discriminant is
    not-a-number and passes every test. *)
Lemma hits_outside_half_open_range_binary64 :
  getRayIntersection (AsSphere (Sphere.new (pt 0 0 0) 1%float))
    (pt (-1) 0 0) (pt 1 0 0) 0%float mem0
  = (true, mkMem (pt (-1) 0 0) 0%float [])
  /\ ((-1 <=? 0)%float = true
      /\ getRayIntersection (AsSphere (Sphere.new (pt 0 0 0) 1%float))
           (pt (-0x1p600) 0 0) (pt 1 0 0) (-1)%float mem0
         = (true, mkMem (pt nan nan nan) nan [])).
Proof.
  split; [vm_compute; reflexivity |].
  split; vm_compute; reflexivity.
Qed.

(** On binary64: the hit at distance [4] within range [10]. *)
Lemma hit_passes_both_range_tests_witness :
  let res :=
    getRayIntersection (AsSphere (Sphere.new (pt 0 0 0) 1%float))
      (pt (-5) 0 0) (pt 1 0 0) 10%float mem0 in
  fst res = true
  /\ (intersect_dist (snd res) <? fzero)%fp = false
  /\ (intersect_dist (snd res) >? 10%float)%fp = false.
Proof.
  intros res.
  assert (Y : fst res = true) by (vm_compute; reflexivity).
  split; [exact Y |].
  destruct hit_passes_both_range_tests as (G & _).
  exact (G float float_Scalar
           (AsSphere (Sphere.new (pt 0 0 0) 1%float))
           (pt (-5) 0 0) (pt 1 0 0) 10%float mem0 Y).
Defined.

(** ** Determinism, and the one side effect *)

(** What a query appends to [std::cout]. *)
Lemma ask_cout {F : Type} {SF : Scalar F}
    (obj : AnyObject F) (q : Query F) (m : Mem F) :
  cout (snd (ask obj q m)) =
    match q, obj with
    | AskRayIntersection o dir _, AsPlane pl =>
        if (fabs (computed_denominator pl dir) <? feps)%fp then cout m
        else (cout m ++ plane_trace (computed_d pl o dir))%list
    | _, _ => cout m
    end.
Proof.
  destruct q as [point | o dir k |]; try (destruct obj; reflexivity).
  rewrite ask_ray. cbn [snd].
  destruct obj as [b0 | s | c | pl]; cbn [getRayIntersection].
  - reflexivity.
  - rewrite Sphere_getRayIntersection_computed.
    repeat match goal with
    | |- context [if ?c then _ else _] => destruct c
    end; reflexivity.
  - reflexivity.
  - rewrite Plane_getRayIntersection_computed. cbv zeta.
    repeat match goal with
    | |- context [if ?c then _ else _] => destruct c
    end; reflexivity.
Qed.

(** C8, as the header behaves. On any arithmetic, for every object and
    every query (distance, ray intersection, colour) with its inputs: asked
    twice in a row, the query answers the same both times and leaves the
    output locations after the second call as after the first; its answer,
    and on a hit what it stores, are the same from whatever state it starts,
    in particular after any other query on the same object; the object is a
    read-only argument.  The queries are free of side effects but for one:
    the ray query of a plane appends the line with [d] to [std::cout] on
    every call that the parallel test does not reject. *)
Theorem queries_deterministic_but_plane_prints :
  forall (F : Type) (SF : Scalar F) (obj : AnyObject F) (q : Query F)
         (m : Mem F),
    (fst (ask obj q (snd (ask obj q m))) = fst (ask obj q m)
     /\ outputs (snd (ask obj q (snd (ask obj q m))))
        = outputs (snd (ask obj q m)))
    /\ (forall m' : Mem F,
          fst (ask obj q m') = fst (ask obj q m)
          /\ (is_hit (fst (ask obj q m)) = true ->
              outputs (snd (ask obj q m')) = outputs (snd (ask obj q m))))
    /\ (forall q' : Query F,
          fst (ask obj q (snd (ask obj q' m))) = fst (ask obj q m))
    /\ cout (snd (ask obj q m)) =
         match q, obj with
         | AskRayIntersection o dir _, AsPlane pl =>
             if (fabs (computed_denominator pl dir) <? feps)%fp then cout m
             else (cout m ++ plane_trace (computed_d pl o dir))%list
         | _, _ => cout m
         end.
Proof.
  intros F SF obj q m.
  destruct (answer_independent_of_state obj q m (snd (ask obj q m)))
    as [V W].
  split; [split | split; [| split]].
  - exact V.
  - destruct (is_hit (fst (ask obj q m))) eqn:E.
    + now apply W.
    + apply no_hit_answer_no_write. now rewrite V.
  - intros m'. apply answer_independent_of_state.
  - intros q'. apply answer_independent_of_state.
  - apply ask_cout.
Qed.

(** C8, as stated, fails on the code: the ray query of the plane [z = 0],
    asked on binary64 with the ray from [(0,0,5)] along [(0,0,-1)], leaves
    three items on a [std::cout] that was empty. *)
Lemma plane_query_writes_to_cout :
  let q := AskRayIntersection (pt 0 0 5) (pt 0 0 (-1)) 10%float in
  let obj := AsPlane (Plane.new (pt 0 0 0) (pt 0 0 1)) in
  cout mem0 = []
  /\ cout (snd (ask obj q mem0))
     = [put_string "d: "; put_FloatingPoint 5%float; put_endl]
  /\ cout (snd (ask obj q mem0)) <> cout mem0.
Proof.
  intros q obj.
  assert (E : cout (snd (ask obj q mem0))
              = [put_string "d: "; put_FloatingPoint 5%float; put_endl])
    by (vm_compute; reflexivity).
  split; [reflexivity | split; [exact E |]].
  rewrite E. discriminate.
Qed.

(** On binary64: the same hit from two different states. *)
Lemma deterministic_hit_witness :
  let obj := AsSphere (Sphere.new (pt 0 0 0) 1%float) in
  let q := AskRayIntersection (pt (-5) 0 0) (pt 1 0 0) 10%float in
  let m' := mkMem (pt 1 2 3) 9%float [put_endl] in
  is_hit (fst (ask obj q mem0)) = true
  /\ outputs (snd (ask obj q m')) = outputs (snd (ask obj q mem0)).
Proof.
  intros obj q m'.
  assert (Y : is_hit (fst (ask obj q mem0)) = true)
    by (vm_compute; reflexivity).
  split; [exact Y |].
  destruct (queries_deterministic_but_plane_prints float float_Scalar obj q
              mem0)
    as (_ & G & _).
  exact (proj2 (G m') Y).
Defined.
